(** * Recovery of an ffldb block database from its flat files

    A shallow embedding of the flat-file scanner ([getNextBlock]), of the two
    replay loops ([recoverDB], with and without an acceptance callback), of
    the progress callback built by [RecoverDB], and of the directory protocol
    of the [recover] command ([recoverDatabase]).

    Unsigned machine integers are values of [Z] with their wrap-around
    written out ([wrap32], [wrap64]).  Go pointers that may be nil are
    [option]s.  The flat-file store, the file system probe, the block decoder
    and the chain are collaborators outside these files: they are the fields
    of an environment record [Env]. *)

From Stdlib Require Import ZArith List String Bool Lia DecimalString.
From Stdlib Require Import PrimFloat SpecFloat FloatOps.
Import ListNotations.
Local Open Scope Z_scope.

(** ** Machine integers *)

Definition wrap32 (z : Z) : Z := z mod 2 ^ 32.
Definition wrap64 (z : Z) : Z := z mod 2 ^ 64.

(** ** Errors

    A Go [error] is either a [database.Error], which carries an error code,
    or any other error value. *)

Inductive error : Type :=
| DatabaseError (ErrorCode : Z) (Description : string)
| PlainError (msg : string).

(** ** Block locations and scanners *)

Record blockLocation : Type := mkLoc {
  blockFileNum : Z;
  fileOffset : Z;
  blockLen : Z
}.

(** The store of the flat files; only its base path is looked at here. *)
Record blockStore : Type := mkStore { basePath : string }.

Record scanner : Type := mkScanner {
  s : option blockStore;
  fileNum : Z;
  fileOff : Z;
  fileLen : Z
}.

(** [scanner{}] and [blockLocation{}]. *)
Definition zeroScanner : scanner := mkScanner None 0 0 0.
Definition zeroLocation : blockLocation := mkLoc 0 0 0.

Definition getNextLocation (sc : scanner) : blockLocation :=
  mkLoc (fileNum sc) (fileOff sc) 0.

(** A [btcutil.Block] as [btcutil.NewBlock] builds it from a message. *)
Record BlockOf (M : Type) : Type := NewBlock { msgBlock : M }.
Arguments NewBlock {M} _.
Arguments msgBlock {M} _.

(** ** The collaborators of the package *)

Record Env : Type := mkEnv {
  MsgBlock : Type;
  Hash : Type;
  zeroHash : Hash;
  (** [database.ErrCorruption]. *)
  ErrCorruption : Z;
  blockFilePath : string -> Z -> string;
  (** [os.Stat]: the size of the file, or [None] on any error. *)
  osStat : string -> option Z;
  (** The [readBlock] method of the store. *)
  readBlock : blockStore -> Hash -> blockLocation -> list Byte.byte + error;
  (** The [Deserialize] method of [wire.MsgBlock] run on a zero message: the
      message as the decoder leaves it, and the error it returns. *)
  Deserialize : list Byte.byte -> MsgBlock * option error;
  (** The chain, its behaviour flags and [chain.ProcessBlock], whose two
      boolean results every caller here drops. *)
  Chain : Type;
  BFFastAdd : Z;
  BFNoPoWCheck : Z;
  ProcessBlock : Chain -> BlockOf MsgBlock -> Z -> Chain * option error
}.

Definition Block (E : Env) : Type := BlockOf (MsgBlock E).

(** ** The scanner *)

Definition advanceResult (E : Env) : Type :=
  (scanner * option (Block E) * blockLocation * option error)%type.

Definition endOfData (E : Env) : advanceResult E :=
  (zeroScanner, None, zeroLocation, None).

(** The length of the file under the cursor as the scanner knows it: the
    [fileLen] of the cursor, or, when that is zero, the size that [os.Stat]
    answers, cut to 32 bits; [None] when the file cannot be probed. *)
Definition knownFileLen (E : Env) (bs : blockStore) (sc : scanner) : option Z :=
  if fileLen sc =? 0 then
    match osStat E (blockFilePath E (basePath bs) (fileNum sc)) with
    | None => None
    | Some size => Some (wrap32 size)
    end
  else Some (fileLen sc).

Definition getNextBlock (E : Env) (sc : scanner) : advanceResult E :=
  match s sc with
  | None => endOfData E
  | Some bs =>
    let old := getNextLocation sc in
    match knownFileLen E bs sc with
    | None => endOfData E
    | Some nextLen =>
      match readBlock E bs (zeroHash E) old with
      | inr err => (zeroScanner, None, zeroLocation, Some err)
      | inl block =>
        let msg := fst (Deserialize E block) in
        let len := wrap32 (wrap32 (Z.of_nat (List.length block)) + 12) in
        let old' := mkLoc (blockFileNum old) (fileOffset old) len in
        let off := wrap32 (fileOff sc + len) in
        let next :=
          if off =? nextLen
          then mkScanner (Some bs) (wrap32 (fileNum sc + 1)) 0 0
          else mkScanner (Some bs) (fileNum sc) off nextLen in
        (next, Some (NewBlock msg), old', None)
      end
    end
  end.

Definition isDbErrCorruption (E : Env) (err : error) : bool :=
  match err with
  | DatabaseError code _ => code =? ErrCorruption E
  | PlainError _ => false
  end.

(** ** The replay loop

    The loop of [recoverDB] has no bound of its own, so the embedding runs it
    on fuel: [None] means the fuel ran out, [Some] is what the Go function
    returns.  Besides the two results of the Go function the outcome records
    the state the callback leaves behind and the calls made, in order. *)

Inductive event (E : Env) : Type :=
| EvAdvance (sc : scanner)
| EvAccept (b : Block E) (loc : blockLocation).
Arguments EvAdvance {E} _.
Arguments EvAccept {E} _ _.

Record outcome (E : Env) (St : Type) : Type := mkOutcome {
  finalState : St;
  trace : list (event E);
  blocksRead : Z;
  err : option error
}.
Arguments mkOutcome {E St} _ _ _ _.
Arguments finalState {E St} _.
Arguments trace {E St} _.
Arguments blocksRead {E St} _.
Arguments err {E St} _.

(** The [db] handle; only its store is used. *)
Record db : Type := mkDb { store : option blockStore }.

(** The cursor [recoverDB] starts from: [scanner{s: db.store}]. *)
Definition initialScanner (d : db) : scanner := mkScanner (store d) 0 0 0.

Section Callback.

Variable E : Env.
(** The acceptance callback [f] is a closure: [St] is what it captures. *)
Variable St : Type.
Variable f : St -> Block E -> blockLocation -> St * option error.

Fixpoint replayLoop (fuel : nat) (sc : scanner) (n : Z) (st : St)
    (tr : list (event E)) : option (outcome E St) :=
  match fuel with
  | O => None
  | S fuel' =>
    let n' := wrap32 (n + 1) in
    let tr' := tr ++ [EvAdvance sc] in
    match getNextBlock E sc with
    | (_, _, _, Some e) =>
      if isDbErrCorruption E e
      then Some (mkOutcome st tr' n' None)
      else Some (mkOutcome st tr' n' (Some e))
    | (_, None, _, None) => Some (mkOutcome st tr' n' None)
    | (scn, Some blk, location, None) =>
      let tr'' := tr' ++ [EvAccept blk location] in
      match f st blk location with
      | (st', Some e) => Some (mkOutcome st' tr'' n' (Some e))
      | (st', None) => replayLoop fuel' scn n' st' tr''
      end
    end
  end.

(** [recoverDB] of the variant that takes the callback. *)
Definition recoverDB (fuel : nat) (d : db) (st : St)
    : option (outcome E St) :=
  let sc := initialScanner d in
  match getNextBlock E sc with
  | (_, _, _, Some e) => Some (mkOutcome st [EvAdvance sc] 0 (Some e))
  | (sc', _, _, None) => replayLoop fuel sc' 0 st [EvAdvance sc]
  end.

End Callback.
Arguments replayLoop E {St} f fuel sc n st tr.
Arguments recoverDB E {St} f fuel d st.

(** ** The variant that calls the chain in line *)

Definition processFlags (E : Env) : Z := Z.lor (BFFastAdd E) (BFNoPoWCheck E).

Fixpoint replayLoopInline (E : Env) (fuel : nat) (sc : scanner) (n : Z)
    (ch : Chain E) (tr : list (event E)) : option (outcome E (Chain E)) :=
  match fuel with
  | O => None
  | S fuel' =>
    let n' := wrap32 (n + 1) in
    let tr' := tr ++ [EvAdvance sc] in
    match getNextBlock E sc with
    | (_, _, _, Some e) =>
      if isDbErrCorruption E e
      then Some (mkOutcome ch tr' n' None)
      else Some (mkOutcome ch tr' n' (Some e))
    | (_, None, _, None) => Some (mkOutcome ch tr' n' None)
    | (scn, Some blk, location, None) =>
      let tr'' := tr' ++ [EvAccept blk location] in
      match ProcessBlock E ch blk (processFlags E) with
      | (ch', Some e) => Some (mkOutcome ch' tr'' n' (Some e))
      | (ch', None) => replayLoopInline E fuel' scn n' ch' tr''
      end
    end
  end.

(** [recoverDB] of the variant without a callback. *)
Definition recoverDBInline (E : Env) (fuel : nat) (d : db) (ch : Chain E)
    : option (outcome E (Chain E)) :=
  let sc := initialScanner d in
  match getNextBlock E sc with
  | (_, _, _, Some e) => Some (mkOutcome ch [EvAdvance sc] 0 (Some e))
  | (sc', _, _, None) => replayLoopInline E fuel sc' 0 ch [EvAdvance sc]
  end.

(** The callback that only hands the block to the chain. *)
Definition processOnly (E : Env) (ch : Chain E) (blk : Block E)
    (_ : blockLocation) : Chain E * option error :=
  ProcessBlock E ch blk (processFlags E).

(** ** Runs of the scanner

    [readRecords E n sc] follows the scanner for [n] records from the cursor
    [sc]: it answers the records read, each with the cursor it was read
    from, and the cursor left after the last one, or [None] when one of the
    [n] calls does not yield a block. *)

Record record (E : Env) : Type := mkRecord {
  cursor : scanner;
  blk : Block E;
  loc : blockLocation
}.
Arguments mkRecord {E} _ _ _.
Arguments cursor {E} _.
Arguments blk {E} _.
Arguments loc {E} _.

Fixpoint readRecords (E : Env) (n : nat) (sc : scanner)
    : option (list (record E) * scanner) :=
  match n with
  | O => Some ([], sc)
  | S n' =>
    match getNextBlock E sc with
    | (sc', Some b, l, None) =>
      match readRecords E n' sc' with
      | Some (rs, sc'') => Some (mkRecord sc b l :: rs, sc'')
      | None => None
      end
    | _ => None
    end
  end.

(** The calls that replaying the records [rs] makes. *)
Definition eventsOf {E : Env} (rs : list (record E)) : list (event E) :=
  flat_map (fun r => [EvAdvance (cursor r); EvAccept (blk r) (loc r)]) rs.

(** The callback run over the records in order, up to its first error. *)
Fixpoint feed {E : Env} {St : Type}
    (f : St -> Block E -> blockLocation -> St * option error)
    (st : St) (rs : list (record E)) : St * option error :=
  match rs with
  | [] => (st, None)
  | r :: rs' =>
    match f st (blk r) (loc r) with
    | (st', Some e) => (st', Some e)
    | (st', None) => feed f st' rs'
    end
  end.

(** [blocksRead++] done [j] times. *)
Fixpoint bump (j : nat) (n : Z) : Z :=
  match j with
  | O => n
  | S j' => bump j' (wrap32 (n + 1))
  end.

(** The result of the call made after [n] earlier calls, each on the cursor
    that the one before returned. *)
Fixpoint nthAdvance (E : Env) (n : nat) (sc : scanner) : advanceResult E :=
  match n with
  | O => getNextBlock E sc
  | S n' =>
    match getNextBlock E sc with
    | (next, _, _, _) => nthAdvance E n' next
    end
  end.

(** ** Flat files given by their records

    A concrete store to run the definitions on: each file is the list of its
    records, a record being the raw block that [readBlock] answers or the
    error it fails with.  A record takes its raw length plus the 12 bytes of
    framing on disk. *)

Definition diskRecord : Type := (list Byte.byte + error)%type.
Definition disk : Type := list (list diskRecord).

Definition recordSize (r : diskRecord) : Z :=
  match r with
  | inl raw => Z.of_nat (List.length raw) + 12
  | inr _ => 12
  end.

Definition fileSize (f : list diskRecord) : Z :=
  fold_right (fun r acc => recordSize r + acc) 0 f.

Fixpoint recordAt (f : list diskRecord) (off : Z) : diskRecord :=
  match f with
  | [] => inr (PlainError "EOF")
  | r :: f' =>
    if off =? 0 then r
    else if off <? recordSize r then inr (PlainError "unexpected EOF")
    else recordAt f' (off - recordSize r)
  end.

Definition diskFilePath (base : string) (n : Z) : string :=
  (base ++ "/" ++ NilEmpty.string_of_uint (N.to_uint (Z.to_N n)) ++ ".fdb")%string.

Definition diskBase : string := "blocks_ffldb".

Definition diskStat (d : disk) (path : string) : option Z :=
  match find (fun i => String.eqb (diskFilePath diskBase (Z.of_nat i)) path)
             (seq 0 (List.length d)) with
  | Some i => Some (fileSize (nth i d []))
  | None => None
  end.

Definition diskRead (d : disk) (_ : blockStore) (_ : unit)
    (l : blockLocation) : diskRecord :=
  if (0 <=? blockFileNum l) && (blockFileNum l <? Z.of_nat (List.length d))
  then recordAt (nth (Z.to_nat (blockFileNum l)) d []) (fileOffset l)
  else inr (PlainError "no such file").

(** A decoder that wants at least the 80 bytes of a block header. *)
Definition diskDeserialize (raw : list Byte.byte)
    : list Byte.byte * option error :=
  if (List.length raw <? 80)%nat
  then ([], Some (PlainError "unexpected EOF"))
  else (raw, None).

Definition diskErrCorruption : Z := 7.

(** The chain of the concrete store counts the blocks it is given. *)
Definition diskEnv (d : disk) : Env :=
  mkEnv (list Byte.byte) unit tt diskErrCorruption diskFilePath (diskStat d)
        (diskRead d) diskDeserialize
        nat 1 2 (fun ch _ _ => (S ch, None)).

Definition diskDb : db := mkDb (Some (mkStore diskBase)).

(** A raw block of [n] bytes, and a record that fails its checksum. *)
Definition rawBlock (n : nat) : diskRecord := inl (repeat Byte.x00 n).
Definition corruptRecord : diskRecord :=
  inr (DatabaseError diskErrCorruption "checksum mismatch").

(** Callbacks and stores to run the replay on. *)
Definition countBlocks {E : Env} (st : nat) (_ : Block E) (_ : blockLocation)
    : nat * option error := (S st, None).

Definition rejectFrom {E : Env} (k : nat) (st : nat) (_ : Block E)
    (_ : blockLocation) : nat * option error :=
  if (st <? k)%nat then (S st, None)
  else (S st, Some (PlainError "block rejected")).

Definition threeRecords : disk := [[rawBlock 80; rawBlock 81]; [rawBlock 80]].
Definition corruptThird : disk :=
  [[rawBlock 80; rawBlock 81]; [corruptRecord; rawBlock 80]].
Definition corruptFirst : disk := [[corruptRecord; rawBlock 80]].
Definition shortRecord : disk := [[rawBlock 10]].
Definition unreadableSecond : disk :=
  [[rawBlock 80; inr (PlainError "input/output error")]].

(** ** The progress callback of [RecoverDB]

    The closure that [RecoverDB] hands to [recoverDB] keeps four counters and
    prints a status line at two cadences.  A status line is the record of the
    five numbers printed; [float] is the binary64 of the hardware.  The clock
    is read once per status line: [clock i] is the reading, in seconds since
    the start, taken for the line printed after [i] earlier ones.  An integer
    division by zero stops the program: the step then answers [None]. *)

Module Reporter.

(** The conversion [float64(x)] of an unsigned integer, rounding to
    nearest even. *)
Definition float64 (z : Z) : float :=
  SF2Prim (binary_normalize prec emax z 0 false).

Record status : Type := mkStatus {
  blocks : Z;
  bytes : Z;
  percent : float;
  timeTaken : float;
  estimatedTimeRemaining : float
}.

Definition printStatus (dbSize : Z) (elapsed : float)
    (bytesRead blocksRead : Z) : status :=
  let fraction := (float64 bytesRead / float64 dbSize)%float in
  let percent := (fraction * 100)%float in
  let timeTaken := elapsed in
  let estimatedTimeRemaining :=
    (timeTaken * (1 - fraction) / fraction)%float in
  mkStatus blocksRead bytesRead percent timeTaken estimatedTimeRemaining.

Record state : Type := mkState {
  bytesRead : Z;
  reports : Z;
  blocksReports : Z;
  blocksRead : Z;
  printed : list status
}.

Definition initial : state := mkState 0 0 0 0 [].

Definition blocksReportInterval : Z := 10000.
Definition reportInterval (dbSize : Z) : Z := dbSize / 100.

Definition print (dbSize : Z) (clock : nat -> float) (st : state) : state :=
  mkState (bytesRead st) (reports st) (blocksReports st) (blocksRead st)
    (printed st
     ++ [printStatus dbSize (clock (List.length (printed st)))
           (bytesRead st) (blocksRead st)]).

(** [bytesRead += uint64(location.blockLen)] and [blocksRead += 1]. *)
Definition count (st : state) (location : blockLocation) : state :=
  mkState (wrap64 (bytesRead st + blockLen location)) (reports st)
    (blocksReports st) (wrap32 (blocksRead st + 1)) (printed st).

(** The report once per [reportInterval] bytes. *)
Definition byteCadence (dbSize : Z) (clock : nat -> float) (st : state)
    : option state :=
  if reportInterval dbSize =? 0 then None
  else if bytesRead st / reportInterval dbSize >? reports st
  then Some (print dbSize clock
               (mkState (bytesRead st) (bytesRead st / reportInterval dbSize)
                  (blocksReports st) (blocksRead st) (printed st)))
  else Some st.

(** The report once per [blocksReportInterval] blocks. *)
Definition blockCadence (dbSize : Z) (clock : nat -> float) (st : state)
    : state :=
  if blocksRead st / blocksReportInterval >? blocksReports st
  then print dbSize clock
         (mkState (bytesRead st) (reports st)
            (blocksRead st / blocksReportInterval)
            (blocksRead st) (printed st))
  else st.

(** The counting and reporting part of the callback. *)
Definition report (dbSize : Z) (clock : nat -> float) (st : state)
    (location : blockLocation) : option state :=
  match byteCadence dbSize clock (count st location) with
  | None => None
  | Some st1 => Some (blockCadence dbSize clock st1)
  end.

(** The callback: count, report, then hand the block to the chain. *)
Definition callback (E : Env) (dbSize : Z) (clock : nat -> float)
    (st : state * Chain E) (blk : Block E) (location : blockLocation)
    : option ((state * Chain E) * option error) :=
  match report dbSize clock (fst st) location with
  | None => None
  | Some st' =>
    match ProcessBlock E (snd st) blk (processFlags E) with
    | (ch', e) => Some ((st', ch'), e)
    end
  end.

(** The reporting part run over the locations of a sequence of calls. *)
Fixpoint reportAll (dbSize : Z) (clock : nat -> float) (st : state)
    (locations : list blockLocation) : option state :=
  match locations with
  | [] => Some st
  | l :: ls =>
    match report dbSize clock st l with
    | None => None
    | Some st' => reportAll dbSize clock st' ls
    end
  end.

Definition totalBytes (locations : list blockLocation) : Z :=
  fold_right (fun l acc => blockLen l + acc) 0 locations.

(** What the four counters hold between two calls, while nothing has
    wrapped around. *)
Definition consistent (dbSize : Z) (st : state) : Prop :=
  0 <= bytesRead st /\ 0 <= blocksRead st
  /\ reports st = bytesRead st / reportInterval dbSize
  /\ blocksReports st = blocksRead st / blocksReportInterval
  /\ Z.of_nat (List.length (printed st)) <= reports st + blocksReports st.

End Reporter.

(** ** The file system under the [recover] command

    A tree of directories and files; a path is the list of its components
    from the root of the tree.  The calls of package [os] and the [mv]
    program are functions on the tree. *)

Module Fs.

#[local] Unset Elimination Schemes.
Inductive node : Type :=
| File (data : list Byte.byte)
| Dir (entries : list (string * node)).
#[local] Set Elimination Schemes.

Definition path : Type := list string.

Fixpoint assoc (name : string) (es : list (string * node)) : option node :=
  match es with
  | [] => None
  | (k, n) :: es' => if String.eqb name k then Some n else assoc name es'
  end.

Fixpoint del (name : string) (es : list (string * node))
    : list (string * node) :=
  match es with
  | [] => []
  | (k, n) :: es' =>
    if String.eqb name k then del name es' else (k, n) :: del name es'
  end.

Definition set (name : string) (n : node) (es : list (string * node))
    : list (string * node) :=
  (name, n) :: del name es.

(** What [os.Stat] finds: the node, or the error ENOENT or ENOTDIR. *)
Inductive statResult : Type :=
| Found (n : node)
| NotExist
| NotDir.

Fixpoint stat (p : path) (root : node) : statResult :=
  match p with
  | [] => Found root
  | c :: p' =>
    match root with
    | File _ => NotDir
    | Dir es =>
      match assoc c es with
      | None => NotExist
      | Some n => stat p' n
      end
    end
  end.

(** [os.IsNotExist(err)] on the error of a [stat]. *)
Definition isNotExist (r : statResult) : bool :=
  match r with NotExist => true | _ => false end.

(** [err == nil] on the error of a [stat]. *)
Definition isFound (r : statResult) : bool :=
  match r with Found _ => true | _ => false end.

Definition statError (r : statResult) : error :=
  match r with
  | NotDir => PlainError "not a directory"
  | _ => PlainError "no such file or directory"
  end.

(** [os.MkdirAll]: creates the directory and the missing ones above it;
    fails when a component is a file. *)
Fixpoint mkdirAll (p : path) (root : node) : option node :=
  match p with
  | [] => match root with Dir _ => Some root | File _ => None end
  | c :: p' =>
    match root with
    | File _ => None
    | Dir es =>
      let child := match assoc c es with Some n => n | None => Dir [] end in
      match mkdirAll p' child with
      | Some n' => Some (Dir (set c n' es))
      | None => None
      end
    end
  end.

(** Takes the entry at [p] out of the tree; the tree is unchanged when
    there is none. *)
Fixpoint removeAt (p : path) (root : node) : node :=
  match p with
  | [] => root
  | c :: p' =>
    match root with
    | File _ => root
    | Dir es =>
      match p' with
      | [] => Dir (del c es)
      | _ :: _ =>
        match assoc c es with
        | Some n => Dir (set c (removeAt p' n) es)
        | None => root
        end
      end
    end
  end.

(** Puts [n] at [p], whose parent must be a directory of the tree. *)
Fixpoint insertAt (p : path) (n : node) (root : node) : option node :=
  match p with
  | [] => None
  | c :: p' =>
    match root with
    | File _ => None
    | Dir es =>
      match p' with
      | [] => Some (Dir (set c n es))
      | _ :: _ =>
        match assoc c es with
        | Some m =>
          match insertAt p' n m with
          | Some m' => Some (Dir (set c m' es))
          | None => None
          end
        | None => None
        end
      end
    end
  end.

(** [os.RemoveAll]: removes the entry and all below it; a missing entry is
    no error; the root of the tree cannot be removed. *)
Definition removeAll (p : path) (root : node) : option node :=
  match p with
  | [] => None
  | _ :: _ => Some (removeAt p root)
  end.

(** [os.Remove]: removes a file or an empty directory; the callers here
    drop its error, so the tree is left as it is when it fails. *)
Definition remove (p : path) (root : node) : node :=
  match stat p root with
  | Found (File _) | Found (Dir []) => removeAt p root
  | _ => root
  end.

Fixpoint isPrefix (p q : path) : bool :=
  match p, q with
  | [], _ => true
  | _ :: _, [] => false
  | a :: p', b :: q' => String.eqb a b && isPrefix p' q'
  end.

(** [mv src dst] with [dst] an existing directory: [src] becomes the entry
    of [dst] that has the last name of [src].  The move is refused when that
    entry exists already, when [dst] lies in [src], and when [dst] is not an
    existing directory. *)
Definition mv (src dst : path) (root : node) : option node :=
  match stat src root, stat dst root with
  | Found n, Found (Dir _) =>
    let target := dst ++ [last src ""%string] in
    if isPrefix src target then None
    else
      match stat target root with
      | NotExist => insertAt target n (removeAt src root)
      | _ => None
      end
  | _, _ => None
  end.

End Fs.

(** ** The [recover] command *)

Module Recover.
Import Fs.

Definition recoveryDir : string := "recovery".
Definition blocksDir : string := "blocks_ffldb".

(** [filepath.Join] of a path and one name; an empty name adds nothing. *)
Definition join (p : path) (name : string) : path :=
  if String.eqb name "" then p else p ++ [name].

(** The calls that change the tree, as made. *)
Inductive op : Type :=
| OpMkdirAll (p : path)
| OpMv (src dst : path)
| OpRemoveAll (p : path)
| OpRemove (p : path).

(** The tree and the calls made on it so far. *)
Definition world : Type := (node * list op)%type.

Definition subdirOf (MainNet TestNet3 net : Z) : string :=
  if net =? MainNet then "mainnet"
  else if net =? TestNet3 then "testnet"
  else "".

(** Create recovery directory if it does not exist. *)
Definition createRecoveryDir (dbPath recoveryPath : path) (w : world)
    : world * option error :=
  let (root, ops) := w in
  match stat recoveryPath root with
  | NotExist =>
    match stat dbPath root with
    | Found _ =>
      match mkdirAll recoveryPath root with
      | Some root' => ((root', ops ++ [OpMkdirAll recoveryPath]), None)
      | None => (w, Some (PlainError "mkdir failed"))
      end
    | r => (w, Some (statError r))
    end
  | Found _ => (w, None)
  | NotDir => (w, Some (statError NotDir))
  end.

(** Move database to recovery directory. *)
Definition moveDatabase (dbPath recoveryPath recoveryDbPath : path)
    (w : world) : world * option error :=
  let (root, ops) := w in
  if isNotExist (stat recoveryDbPath root) then
    match stat dbPath root with
    | NotExist => (w, Some (PlainError "Could not find database to recover."))
    | NotDir => (w, Some (statError NotDir))
    | Found _ =>
      match mv dbPath recoveryPath root with
      | Some root' => ((root', ops ++ [OpMv dbPath recoveryPath]), None)
      | None => (w, Some (PlainError "Could not move folder: exit status 1"))
      end
    end
  else (w, None).

(** Delete old database if necessary. *)
Definition deleteOldDatabase (dbPath : path) (w : world)
    : world * option error :=
  let (root, ops) := w in
  if isFound (stat dbPath root) then
    match removeAll dbPath root with
    | Some root' => ((root', ops ++ [OpRemoveAll dbPath]), None)
    | None => (w, Some (PlainError "remove failed"))
    end
  else (w, None).

(** Sequencing with Go's early return on an error. *)
Definition andThen (r : world * option error)
    (k : world -> world * option error) : world * option error :=
  match r with
  | (w, None) => k w
  | (w, Some e) => (w, Some e)
  end.

Section Command.

Variables MainNet TestNet3 : Z.
(** [ffldb.RecoverDB] on the new and the old blocks directory: the tree it
    leaves, and the number of blocks read or the error. *)
Variable RecoverDB : path -> path -> Z -> node -> node * (Z + error).

(** The three steps of [recoverDatabase] that stage the database: from the
    creation of the recovery directory to the removal of the old one. *)
Definition stage (p : path) (net : Z) (w : world) : world * option error :=
  let subdir := subdirOf MainNet TestNet3 net in
  let dbPath := join p subdir in
  let recoveryPath := join p recoveryDir in
  let recoveryDbPath := join recoveryPath subdir in
  andThen (createRecoveryDir dbPath recoveryPath w) (fun w1 =>
  andThen (moveDatabase dbPath recoveryPath recoveryDbPath w1) (fun w2 =>
  deleteOldDatabase dbPath w2)).

Definition recoverDatabase (p : path) (net : Z) (w : world)
    : world * (Z * option error) :=
  let subdir := subdirOf MainNet TestNet3 net in
  if isFound (stat p (fst w)) then
    let dbPath := join p subdir in
    let recoveryPath := join p recoveryDir in
    let recoveryDbPath := join recoveryPath subdir in
    match stage p net w with
    | (w', Some e) => (w', (0, Some e))
    | ((root, ops), None) =>
      match RecoverDB (join dbPath blocksDir) (join recoveryDbPath blocksDir)
              net root with
      | (root', inr e) =>
        ((remove dbPath root', ops ++ [OpRemove dbPath]), (0, Some e))
      | (root', inl blks) =>
        ((remove recoveryPath root', ops ++ [OpRemove recoveryPath]),
         (blks, None))
      end
    end
  else (w, (0, Some (PlainError "Could not read path."))).

End Command.

(** A data directory to run the command on. *)
Definition sampleDb : node :=
  Dir [("blocks_ffldb"%string,
        Dir [("000000000.fdb"%string, File [Byte.x01; Byte.x02]);
             ("metadata"%string, Dir [])])].

Definition sampleRoot : node :=
  Dir [("data"%string,
        Dir [("mainnet"%string, sampleDb);
             ("testnet"%string, Dir [])])].

Definition sampleMainNet : Z := 3652501241.
Definition sampleTestNet3 : Z := 118034699.

End Recover.

(** ** Ranges and counts used to state facts about the scanner and the
    replay *)

(** A value of a [uint32] variable. *)
Definition inRange32 (z : Z) : Prop := 0 <= z < 2 ^ 32.

Definition scannerInRange (sc : scanner) : Prop :=
  inRange32 (fileNum sc) /\ inRange32 (fileOff sc) /\ inRange32 (fileLen sc).

Definition locationInRange (l : blockLocation) : Prop :=
  inRange32 (blockFileNum l) /\ inRange32 (fileOffset l)
  /\ inRange32 (blockLen l).

(** The calls of [getNextBlock] and of the callback in a trace. *)
Definition isAdvance {E : Env} (ev : event E) : bool :=
  match ev with EvAdvance _ => true | EvAccept _ _ => false end.

Definition advances {E : Env} (tr : list (event E)) : Z :=
  Z.of_nat (List.length (filter isAdvance tr)).

Definition accepts {E : Env} (tr : list (event E)) : Z :=
  Z.of_nat (List.length (filter (fun ev => negb (isAdvance ev)) tr)).

(** ** Stores whose files are made of records

    [filesLaidOut E bs i files] checks that, from file number [i] on, the
    store [bs] of the environment [E] holds exactly the files [files], each a
    non-empty list of raw blocks: [os.Stat] answers for each file the sum of
    the framed sizes of its blocks, which is below 2^32, [readBlock] answers
    each block at the offset where its record starts, and the file after the
    last one is absent. *)

Fixpoint bytesEqb (a b : list Byte.byte) : bool :=
  match a, b with
  | [], [] => true
  | x :: a', y :: b' => Byte.eqb x y && bytesEqb a' b'
  | _, _ => false
  end.

(** The size of a record on disk: the raw block and 12 bytes of framing. *)
Definition framedSize (raw : list Byte.byte) : Z :=
  Z.of_nat (List.length raw) + 12.

Definition framedFileSize (f : list (list Byte.byte)) : Z :=
  fold_right (fun raw acc => framedSize raw + acc) 0 f.

Fixpoint recordsLaidOut (E : Env) (bs : blockStore) (i off : Z)
    (f : list (list Byte.byte)) : bool :=
  match f with
  | [] => true
  | raw :: f' =>
    match readBlock E bs (zeroHash E) (mkLoc i off 0) with
    | inl raw' => bytesEqb raw' raw
    | inr _ => false
    end
    && recordsLaidOut E bs i (off + framedSize raw) f'
  end.

Fixpoint filesLaidOut (E : Env) (bs : blockStore) (i : Z)
    (files : list (list (list Byte.byte))) : bool :=
  match files with
  | [] =>
    match osStat E (blockFilePath E (basePath bs) i) with
    | None => true
    | Some _ => false
    end
  | f :: fs =>
    match f with [] => false | _ :: _ => true end
    && match osStat E (blockFilePath E (basePath bs) i) with
       | Some size => size =? framedFileSize f
       | None => false
       end
    && (framedFileSize f <? 2 ^ 32)
    && recordsLaidOut E bs i 0 f
    && filesLaidOut E bs (i + 1) fs
  end.

(** The locations of the records of a file and of a list of files. *)
Fixpoint fileLocations (i off : Z) (f : list (list Byte.byte))
    : list blockLocation :=
  match f with
  | [] => []
  | raw :: f' =>
    mkLoc i off (framedSize raw) :: fileLocations i (off + framedSize raw) f'
  end.

Fixpoint storeLocations (i : Z) (files : list (list (list Byte.byte)))
    : list blockLocation :=
  match files with
  | [] => []
  | f :: fs => fileLocations i 0 f ++ storeLocations (i + 1) fs
  end.

(** ** The size of the database

    The loop of [RecoverDB] that adds up the sizes of the flat files, from
    file 0 to the first file that [os.Stat] does not find; on fuel, like the
    replay loop. *)

Fixpoint databaseSizeLoop (E : Env) (bs : blockStore) (fuel : nat)
    (fileNum dbSize : Z) : option Z :=
  match fuel with
  | O => None
  | S fuel' =>
    match osStat E (blockFilePath E (basePath bs) fileNum) with
    | None => Some dbSize
    | Some size =>
      databaseSizeLoop E bs fuel' (wrap32 (fileNum + 1))
        (wrap64 (dbSize + wrap64 size))
    end
  end.

Definition databaseSize (E : Env) (bs : blockStore) (fuel : nat) : option Z :=
  databaseSizeLoop E bs fuel 0 0.

(** The block that [getNextBlock] builds from a raw block. *)
Definition decoded (E : Env) (raw : list Byte.byte) : Block E :=
  NewBlock (fst (Deserialize E raw)).

(** A store of 44 bytes: one file of two records with raw blocks of 10
    bytes, and its raw blocks. *)
Definition tinyStore : disk := [[rawBlock 10; rawBlock 10]].
Definition tinyBlocks : list (list (list Byte.byte)) :=
  [[repeat Byte.x00 10; repeat Byte.x00 10]].

(** The raw blocks of [threeRecords]. *)
Definition threeBlocks : list (list (list Byte.byte)) :=
  [[repeat Byte.x00 80; repeat Byte.x00 81]; [repeat Byte.x00 80]].

(** The size of all the files together. *)
Definition storeSize (files : list (list (list Byte.byte))) : Z :=
  fold_right (fun f acc => framedFileSize f + acc) 0 files.

(** The blocks and locations handed to the callback in a trace. *)
Fixpoint accepted {E : Env} (tr : list (event E))
    : list (Block E * blockLocation) :=
  match tr with
  | [] => []
  | EvAdvance _ :: tr' => accepted tr'
  | EvAccept b l :: tr' => (b, l) :: accepted tr'
  end.

(** Further trees to run the [recover] command on. *)
Module RecoverSamples.
Import Fs Recover.

(** The database staged, and a new database half built at the old path. *)
Definition interruptedRoot : node :=
  Dir [("data"%string,
        Dir [("recovery"%string, Dir [("mainnet"%string, sampleDb)]);
             ("mainnet"%string, Dir [("blocks_ffldb"%string, Dir [])])])].

(** A regular file where the recovery directory should be. *)
Definition blockedRoot : node :=
  Dir [("data"%string,
        Dir [("mainnet"%string, sampleDb);
             ("recovery"%string, File [Byte.x00])])].

(** No database and nothing staged. *)
Definition emptyRoot : node := Dir [("data"%string, Dir [])].

(** A [RecoverDB] that builds the new database and reads two blocks, and
    one that fails after creating the directory of the new database. *)
Definition sampleRecoverDB (newPath _ : path) (_ : Z) (root : node)
    : node * (Z + error) :=
  match mkdirAll newPath root with
  | Some root' => (root', inl 2)
  | None => (root, inr (PlainError "cannot create database"))
  end.

Definition failingRecoverDB (newPath _ : path) (_ : Z) (root : node)
    : node * (Z + error) :=
  match mkdirAll (removelast newPath) root with
  | Some root' => (root', inr (PlainError "block rejected"))
  | None => (root, inr (PlainError "cannot create database"))
  end.

End RecoverSamples.

(* ================================================================== *)
(** * Facts *)

(** ** Arithmetic of the counters *)

Lemma wrap32_small z : 0 <= z < 2 ^ 32 -> wrap32 z = z.
Proof. intros H. unfold wrap32. now apply Z.mod_small. Qed.

Lemma wrap32_add_l a b : wrap32 (wrap32 a + b) = wrap32 (a + b).
Proof. unfold wrap32. apply Z.add_mod_idemp_l. lia. Qed.

Lemma bump_succ j n : bump (S j) n = wrap32 (n + Z.of_nat (S j)).
Proof.
  revert n. induction j as [|j IH]; intros n.
  - reflexivity.
  - change (bump (S (S j)) n) with (bump (S j) (wrap32 (n + 1))).
    rewrite IH, wrap32_add_l. f_equal. lia.
Qed.

Lemma bump_zero j : bump j 0 = wrap32 (Z.of_nat j).
Proof. destruct j as [|j]; [reflexivity | now rewrite bump_succ]. Qed.

(** ** Runs of the scanner *)

Ltac split_advance E sc H :=
  let sc' := fresh "sc'" in
  let ob := fresh "ob" in
  let l := fresh "l" in
  let oe := fresh "oe" in
  destruct (getNextBlock E sc) as [[[sc' ob] l] oe] eqn:H.

Lemma readRecords_length E n : forall sc rs sc',
  readRecords E n sc = Some (rs, sc') -> List.length rs = n.
Proof.
  induction n as [|n IH]; intros sc rs sc' H; simpl in H.
  - now inversion H.
  - split_advance E sc Hg. destruct ob as [b|]; [|discriminate].
    destruct oe; [discriminate|].
    destruct (readRecords E n sc'0) as [[rs' sc'']|] eqn:Hr; [|discriminate].
    inversion H; subst. simpl. f_equal. eauto.
Qed.

Lemma readRecords_step E n sc r rs sc' :
  readRecords E (S n) sc = Some (r :: rs, sc') ->
  exists sc1, getNextBlock E sc = (sc1, Some (blk r), loc r, None)
              /\ cursor r = sc /\ readRecords E n sc1 = Some (rs, sc').
Proof.
  simpl. split_advance E sc Hg. destruct ob as [b|]; [|discriminate].
  destruct oe; [discriminate|].
  destruct (readRecords E n sc'0) as [[rs' sc'']|] eqn:Hr; [|discriminate].
  intros H; inversion H; subst. exists sc'0. simpl. auto.
Qed.

Section Replay.

Variable E : Env.
Variable St : Type.
Variable f : St -> Block E -> blockLocation -> St * option error.

(** While the scanner yields records and the callback accepts them, the
    loop goes round once per record. *)
Lemma replayLoop_run n : forall sc rs sc',
  readRecords E n sc = Some (rs, sc') ->
  forall fuel c st st' tr,
    feed f st rs = (st', None) ->
    replayLoop E f (n + fuel) sc c st tr
    = replayLoop E f fuel sc' (bump n c) st' (tr ++ eventsOf rs).
Proof.
  induction n as [|n IH]; intros sc rs sc' Hr fuel c st st' tr Hf.
  - simpl in Hr. inversion Hr; subst. simpl in Hf. inversion Hf; subst.
    simpl. now rewrite app_nil_r.
  - pose proof (readRecords_length _ _ _ _ _ Hr) as Hlen.
    destruct rs as [|r rs]; [discriminate|].
    destruct (readRecords_step _ _ _ _ _ _ Hr) as (sc1 & Hg & Hc & Hr').
    simpl in Hf. destruct (f st (blk r) (loc r)) as [st1 [e|]] eqn:Hfr;
      [discriminate|].
    change (S n + fuel)%nat with (S (n + fuel)).
    cbn [replayLoop]. rewrite Hg, Hfr.
    rewrite (IH _ _ _ Hr' fuel _ _ _ _ Hf).
    cbn [bump eventsOf flat_map]. rewrite <- Hc.
    f_equal. rewrite <- !app_assoc. reflexivity.
Qed.

(** The loop stops on the record the callback rejects. *)
Lemma replayLoop_reject n : forall sc rs r sc',
  readRecords E (S n) sc = Some (rs ++ [r], sc') ->
  forall fuel c st st1 st2 e tr,
    feed f st rs = (st1, None) ->
    f st1 (blk r) (loc r) = (st2, Some e) ->
    replayLoop E f (S n + fuel) sc c st tr
    = Some (mkOutcome st2
              (tr ++ eventsOf rs ++ [EvAdvance (cursor r); EvAccept (blk r) (loc r)])
              (bump (S n) c) (Some e)).
Proof.
  induction n as [|n IH]; intros sc rs r sc' Hr fuel c st st1 st2 e tr Hf Hrej.
  - pose proof (readRecords_length _ _ _ _ _ Hr) as Hlen.
    rewrite length_app in Hlen. simpl in Hlen.
    destruct rs as [|x rs]; [|simpl in Hlen; lia].
    simpl in Hf. inversion Hf; subst st1.
    destruct (readRecords_step _ _ _ _ _ _ Hr) as (sc1 & Hg & Hc & _).
    cbn [Nat.add replayLoop]. rewrite Hg, Hrej. subst sc.
    cbn [eventsOf flat_map app bump]. rewrite <- app_assoc. reflexivity.
  - pose proof (readRecords_length _ _ _ _ _ Hr) as Hlen.
    rewrite length_app in Hlen. simpl in Hlen.
    destruct rs as [|x rs]; [simpl in Hlen; lia|].
    destruct (readRecords_step _ _ _ _ _ _ Hr) as (sc1 & Hg & Hc & Hr').
    simpl in Hf. destruct (f st (blk x) (loc x)) as [sx [ex|]] eqn:Hfx;
      [discriminate|].
    change (S (S n) + fuel)%nat with (S (S n + fuel)).
    cbn [replayLoop]. rewrite Hg, Hfx.
    rewrite (IH _ _ _ _ Hr' fuel _ _ _ _ _ _ Hf Hrej).
    cbn [bump eventsOf flat_map]. rewrite <- Hc.
    f_equal. f_equal. rewrite <- !app_assoc. reflexivity.
Qed.

End Replay.

(** ** The scanner *)

Lemma getNextBlock_read E sc bs known raw :
  s sc = Some bs ->
  knownFileLen E bs sc = Some known ->
  readBlock E bs (zeroHash E) (getNextLocation sc) = inl raw ->
  getNextBlock E sc =
    (let len := wrap32 (Z.of_nat (List.length raw) + 12) in
     let off := wrap32 (fileOff sc + len) in
     (if off =? known
      then mkScanner (Some bs) (wrap32 (fileNum sc + 1)) 0 0
      else mkScanner (Some bs) (fileNum sc) off known,
      Some (NewBlock (fst (Deserialize E raw))),
      mkLoc (fileNum sc) (fileOff sc) len, None)).
Proof.
  intros Hs Hk Hr. unfold getNextBlock. rewrite Hs, Hk, Hr.
  cbv zeta. rewrite wrap32_add_l. reflexivity.
Qed.

(** Every return that carries no block or carries an error hands back the
    zero scanner. *)
Lemma getNextBlock_stop E sc next ob l oe :
  getNextBlock E sc = (next, ob, l, oe) ->
  ob = None \/ oe <> None -> next = zeroScanner.
Proof.
  unfold getNextBlock, endOfData.
  destruct (s sc) as [bs|]; [|intros H; now inversion H].
  destruct (knownFileLen E bs sc) as [known|]; [|intros H; now inversion H].
  destruct (readBlock E bs (zeroHash E) (getNextLocation sc)) as [raw|e].
  - intros H. inversion H; subst. intros [Hb|He]; [discriminate | now elim He].
  - intros H; now inversion H.
Qed.

Lemma nthAdvance_zeroScanner E n : nthAdvance E n zeroScanner = endOfData E.
Proof. induction n as [|n IH]; simpl; auto. Qed.

(** C5: a cursor whose file length is not yet known and whose file is
    absent makes [getNextBlock] answer end-of-data: the zero scanner, no
    block, and no error. *)
Theorem getNextBlock_missing_file E sc bs :
  s sc = Some bs ->
  fileLen sc = 0 ->
  osStat E (blockFilePath E (basePath bs) (fileNum sc)) = None ->
  getNextBlock E sc = endOfData E.
Proof.
  intros Hs Hl Hstat. unfold getNextBlock, knownFileLen.
  now rewrite Hs, Hl, Hstat.
Qed.

Lemma getNextBlock_missing_file_witness :
  getNextBlock (diskEnv threeRecords) (mkScanner (Some (mkStore diskBase)) 2 0 0)
  = endOfData (diskEnv threeRecords).
Proof.
  apply (getNextBlock_missing_file (diskEnv threeRecords)
           (mkScanner (Some (mkStore diskBase)) 2 0 0) (mkStore diskBase));
    reflexivity.
Defined.

(** C9: when [getNextBlock] answers no block or an error, the cursor it
    hands back is the zero scanner, which has no store, and every later call
    that starts from it answers end-of-data again: no block and no error. *)
Theorem getNextBlock_absorbing E sc next ob l oe :
  getNextBlock E sc = (next, ob, l, oe) ->
  ob = None \/ oe <> None ->
  next = zeroScanner /\ s next = None
  /\ forall n, nthAdvance E n next = endOfData E.
Proof.
  intros Hg Hstop.
  pose proof (getNextBlock_stop E sc _ _ _ _ Hg Hstop) as ->.
  repeat split. apply nthAdvance_zeroScanner.
Qed.

Lemma getNextBlock_absorbing_witness :
  zeroScanner = zeroScanner /\ s zeroScanner = None
  /\ forall n, nthAdvance (diskEnv corruptThird) n zeroScanner
               = endOfData (diskEnv corruptThird).
Proof.
  apply (getNextBlock_absorbing (diskEnv corruptThird)
           (mkScanner (Some (mkStore diskBase)) 1 0 0)
           zeroScanner None zeroLocation
           (Some (DatabaseError diskErrCorruption "checksum mismatch"))).
  - reflexivity.
  - right. discriminate.
Defined.

(** C4: when the scanner knows the length of the file and [readBlock]
    answers a raw block, the location returned is the cursor's file and
    offset with [blockLen] the raw length plus 12, and the next cursor is
    file [fileNum + 1] at offset 0 with unknown length when the offset plus
    [blockLen] equals the known length of the file, and else the same file
    with the offset moved on by [blockLen]; all in 32-bit arithmetic, which
    is plain arithmetic as long as the sums fit. *)
Theorem getNextBlock_location E sc bs known raw :
  s sc = Some bs ->
  knownFileLen E bs sc = Some known ->
  readBlock E bs (zeroHash E) (getNextLocation sc) = inl raw ->
  exists next b location,
    getNextBlock E sc = (next, Some b, location, None)
    /\ blockFileNum location = fileNum sc
    /\ fileOffset location = fileOff sc
    /\ blockLen location = wrap32 (Z.of_nat (List.length raw) + 12)
    /\ (wrap32 (fileOff sc + blockLen location) = known ->
        next = mkScanner (Some bs) (wrap32 (fileNum sc + 1)) 0 0)
    /\ (wrap32 (fileOff sc + blockLen location) <> known ->
        next = mkScanner (Some bs) (fileNum sc)
                 (wrap32 (fileOff sc + blockLen location)) known)
    /\ (0 <= fileOff sc ->
        fileOff sc + Z.of_nat (List.length raw) + 12 < 2 ^ 32 ->
        blockLen location = Z.of_nat (List.length raw) + 12
        /\ wrap32 (fileOff sc + blockLen location)
           = fileOff sc + blockLen location).
Proof.
  intros Hs Hk Hr.
  rewrite (getNextBlock_read E sc _ _ _ Hs Hk Hr). cbv zeta.
  eexists _, _, _. split; [reflexivity|]. cbn [blockFileNum fileOffset blockLen].
  repeat split.
  - intros Heq. apply Z.eqb_eq in Heq. now rewrite Heq.
  - intros Hne. apply Z.eqb_neq in Hne. now rewrite Hne.
  - apply wrap32_small. lia.
  - rewrite (wrap32_small (Z.of_nat (List.length raw) + 12)) by lia.
    apply wrap32_small. lia.
Qed.

Lemma getNextBlock_location_witness :
  exists next b location,
    getNextBlock (diskEnv threeRecords) (initialScanner diskDb)
    = (next, Some b, location, None)
    /\ blockFileNum location = 0
    /\ fileOffset location = 0
    /\ blockLen location = wrap32 (Z.of_nat 80 + 12)
    /\ (wrap32 (0 + blockLen location) = 185 ->
        next = mkScanner (Some (mkStore diskBase)) (wrap32 (0 + 1)) 0 0)
    /\ (wrap32 (0 + blockLen location) <> 185 ->
        next = mkScanner (Some (mkStore diskBase)) 0
                 (wrap32 (0 + blockLen location)) 185)
    /\ (0 <= 0 ->
        0 + Z.of_nat 80 + 12 < 2 ^ 32 ->
        blockLen location = Z.of_nat 80 + 12
        /\ wrap32 (0 + blockLen location) = 0 + blockLen location).
Proof.
  apply (getNextBlock_location (diskEnv threeRecords) (initialScanner diskDb)
           (mkStore diskBase) 185 (repeat Byte.x00 80)); reflexivity.
Defined.

(** C3: the code does not do what the claim says.  When [readBlock]
    answers a raw block that the decoder rejects, [getNextBlock] still
    returns a block, built from the message as the decoder left it, and no
    error: the result of [Deserialize] is dropped. *)
Theorem getNextBlock_drops_decode_error E sc bs known raw e :
  s sc = Some bs ->
  knownFileLen E bs sc = Some known ->
  readBlock E bs (zeroHash E) (getNextLocation sc) = inl raw ->
  snd (Deserialize E raw) = Some e ->
  exists next location,
    getNextBlock E sc
    = (next, Some (NewBlock (fst (Deserialize E raw))), location, None).
Proof.
  intros Hs Hk Hr _. rewrite (getNextBlock_read E sc _ _ _ Hs Hk Hr).
  cbv zeta. eexists _, _. reflexivity.
Qed.

Lemma getNextBlock_drops_decode_error_witness :
  exists next location,
    getNextBlock (diskEnv shortRecord) (initialScanner diskDb)
    = (next, Some (NewBlock (fst (diskDeserialize (repeat Byte.x00 10)))),
       location, None).
Proof.
  apply (getNextBlock_drops_decode_error (diskEnv shortRecord)
           (initialScanner diskDb) (mkStore diskBase) 22
           (repeat Byte.x00 10) (PlainError "unexpected EOF"));
    reflexivity.
Defined.

(** ** The replay loop *)

Lemma recoverDB_skip E St (f : St -> Block E -> blockLocation -> St * option error)
    fuel d st sc1 ob l :
  getNextBlock E (initialScanner d) = (sc1, ob, l, None) ->
  recoverDB E f fuel d st
  = replayLoop E f fuel sc1 0 st [EvAdvance (initialScanner d)].
Proof. intros H. unfold recoverDB. now rewrite H. Qed.

Lemma replayLoop_inline E fuel : forall sc n ch tr,
  replayLoop E (processOnly E) fuel sc n ch tr
  = replayLoopInline E fuel sc n ch tr.
Proof.
  induction fuel as [|fuel IH]; intros sc n ch tr; [reflexivity|].
  cbn [replayLoop replayLoopInline].
  split_advance E sc Hg. destruct oe as [e|]; [reflexivity|].
  destruct ob as [b|]; [|reflexivity].
  unfold processOnly at 1.
  destruct (ProcessBlock E ch b (processFlags E)) as [ch' [e|]];
    [reflexivity | apply IH].
Qed.

(** C1, amended: when the records at positions 1 to k-1 are read (k at
    least 2), the record at position k fails with a corruption error, and
    the callback accepts the records at positions 2 to k-1, [recoverDB]
    returns no error and [blocksRead] = k-1 (in 32 bits), having made no call
    after the failed read: what the files hold after it plays no part. *)
Theorem recoverDB_corruption_tail E {St}
    (f : St -> Block E -> blockLocation -> St * option error)
    d st (k : nat) g recs sck e st' fuel :
  (2 <= k)%nat ->
  readRecords E (k - 1) (initialScanner d) = Some (g :: recs, sck) ->
  snd (getNextBlock E sck) = Some e ->
  isDbErrCorruption E e = true ->
  feed f st recs = (st', None) ->
  (k - 1 <= fuel)%nat ->
  recoverDB E f fuel d st
  = Some (mkOutcome st'
            (EvAdvance (initialScanner d) :: eventsOf recs ++ [EvAdvance sck])
            (wrap32 (Z.of_nat k - 1)) None).
Proof.
  intros Hk Hr He Hc Hf Hfuel.
  destruct k as [|[|j]]; try lia.
  replace (S (S j) - 1)%nat with (S j) in * by lia.
  destruct (readRecords_step _ _ _ _ _ _ Hr) as (sc1 & Hg & _ & Hr').
  rewrite (recoverDB_skip E St f fuel d st _ _ _ Hg).
  replace fuel with (j + S (fuel - S j))%nat by lia.
  rewrite (replayLoop_run E St f j _ _ _ Hr' _ _ _ _ _ Hf).
  cbn [replayLoop].
  split_advance E sck Hs. simpl in He. subst oe. rewrite Hc.
  rewrite bump_zero, wrap32_add_l. cbn [app].
  destruct ob; do 3 f_equal; lia.
Qed.

Lemma recoverDB_corruption_tail_witness :
  exists trace,
    recoverDB (diskEnv corruptThird) countBlocks 5 diskDb 0%nat
    = Some (mkOutcome 1%nat trace (wrap32 (Z.of_nat 3 - 1)) None).
Proof.
  eexists.
  eapply (recoverDB_corruption_tail (diskEnv corruptThird) countBlocks diskDb
            0%nat 3).
  - lia.
  - reflexivity.
  - reflexivity.
  - reflexivity.
  - reflexivity.
  - simpl. lia.
Defined.

(** C1 as stated fails: a corrupted first record makes [recoverDB] return
    the corruption error, and a callback that rejects a record before the
    corrupted one makes it return the callback's error. *)
Lemma recoverDB_corruption_counterexample :
  isDbErrCorruption (diskEnv corruptFirst)
    (DatabaseError diskErrCorruption "checksum mismatch") = true
  /\ snd (getNextBlock (diskEnv corruptFirst) (initialScanner diskDb))
     = Some (DatabaseError diskErrCorruption "checksum mismatch")
  /\ option_map (fun o => (blocksRead o, err o))
       (recoverDB (diskEnv corruptFirst) countBlocks 5 diskDb 0%nat)
     = Some (0, Some (DatabaseError diskErrCorruption "checksum mismatch"))
  /\ option_map (fun o => (blocksRead o, err o))
       (recoverDB (diskEnv corruptThird) (rejectFrom 0) 5 diskDb 0%nat)
     = Some (1, Some (PlainError "block rejected")).
Proof. repeat split. Qed.

(** C2, amended: when N records are read from the initial cursor (N at
    least 1), the call after them answers end-of-data, and the callback
    accepts the records at positions 2 to N, [recoverDB] hands exactly those
    N-1 blocks to the callback and returns [blocksRead] = N (in 32 bits) and
    no error: the count includes the pass that finds the end of the data. *)
Theorem recoverDB_counts_records E {St}
    (f : St -> Block E -> blockLocation -> St * option error)
    d st (N : nat) g recs scN st' fuel :
  readRecords E N (initialScanner d) = Some (g :: recs, scN) ->
  getNextBlock E scN = endOfData E ->
  feed f st recs = (st', None) ->
  (N <= fuel)%nat ->
  List.length recs = (N - 1)%nat
  /\ recoverDB E f fuel d st
     = Some (mkOutcome st'
               (EvAdvance (initialScanner d) :: eventsOf recs ++ [EvAdvance scN])
               (wrap32 (Z.of_nat N)) None).
Proof.
  intros Hr He Hf Hfuel.
  pose proof (readRecords_length _ _ _ _ _ Hr) as Hlen. simpl in Hlen.
  split; [lia|].
  destruct N as [|j]; [discriminate|].
  destruct (readRecords_step _ _ _ _ _ _ Hr) as (sc1 & Hg & _ & Hr').
  rewrite (recoverDB_skip E St f fuel d st _ _ _ Hg).
  replace fuel with (j + S (fuel - S j))%nat by lia.
  rewrite (replayLoop_run E St f j _ _ _ Hr' _ _ _ _ _ Hf).
  cbn [replayLoop]. rewrite He. unfold endOfData.
  rewrite bump_zero, wrap32_add_l. cbn [app].
  do 3 f_equal. lia.
Qed.

Lemma recoverDB_counts_records_witness :
  exists recs trace,
    List.length recs = (3 - 1)%nat
    /\ recoverDB (diskEnv threeRecords) countBlocks 5 diskDb 0%nat
       = Some (mkOutcome (E := diskEnv threeRecords) 2%nat
                 (EvAdvance (initialScanner diskDb) :: eventsOf recs ++ trace)
                 (wrap32 (Z.of_nat 3)) None).
Proof.
  eexists _, _.
  eapply (recoverDB_counts_records (diskEnv threeRecords) countBlocks diskDb
            0%nat 3).
  - reflexivity.
  - reflexivity.
  - reflexivity.
  - lia.
Defined.

(** C2 as stated fails: on three valid records followed by end-of-data
    [recoverDB] hands two blocks to the callback and reports three. *)
Lemma recoverDB_counts_counterexample :
  (exists rs sc,
     readRecords (diskEnv threeRecords) 3 (initialScanner diskDb) = Some (rs, sc)
     /\ getNextBlock (diskEnv threeRecords) sc = endOfData (diskEnv threeRecords))
  /\ option_map (fun o => (finalState o, blocksRead o, err o))
       (recoverDB (diskEnv threeRecords) countBlocks 5 diskDb 0%nat)
     = Some (2%nat, 3, None)
  /\ 3 <> 3 - 1.
Proof.
  split; [|split; [reflexivity | lia]].
  eexists _, _. split; reflexivity.
Qed.

(** C6: when the callback accepts the records before one and returns an
    error on that one, [recoverDB] returns that error, and the call of the
    callback that was rejected is the last call it makes: no further record
    is read and no further block is handed over. *)
Theorem recoverDB_reject_stops E {St}
    (f : St -> Block E -> blockLocation -> St * option error)
    d st g pre r scEnd st1 st2 e fuel :
  readRecords E (S (S (List.length pre))) (initialScanner d)
    = Some (g :: pre ++ [r], scEnd) ->
  feed f st pre = (st1, None) ->
  f st1 (blk r) (loc r) = (st2, Some e) ->
  (List.length pre < fuel)%nat ->
  recoverDB E f fuel d st
  = Some (mkOutcome st2
            (EvAdvance (initialScanner d)
               :: eventsOf pre ++ [EvAdvance (cursor r); EvAccept (blk r) (loc r)])
            (wrap32 (Z.of_nat (List.length pre) + 1)) (Some e)).
Proof.
  intros Hr Hf Hrej Hfuel.
  destruct (readRecords_step _ _ _ _ _ _ Hr) as (sc1 & Hg & _ & Hr').
  rewrite (recoverDB_skip E St f fuel d st _ _ _ Hg).
  replace fuel with (S (List.length pre) + (fuel - S (List.length pre)))%nat
    by lia.
  rewrite (replayLoop_reject E St f _ _ _ _ _ Hr' _ _ _ _ _ _ _ Hf Hrej).
  rewrite bump_succ. cbn [app]. do 3 f_equal. lia.
Qed.

Lemma recoverDB_reject_stops_witness :
  exists trace,
    recoverDB (diskEnv threeRecords) (rejectFrom 1) 5 diskDb 0%nat
    = Some (mkOutcome (E := diskEnv threeRecords) 2%nat trace
              (wrap32 (Z.of_nat 1 + 1)) (Some (PlainError "block rejected"))).
Proof.
  eexists.
  eapply (recoverDB_reject_stops (diskEnv threeRecords) (rejectFrom 1) diskDb
            0%nat _ [_] _).
  - reflexivity.
  - reflexivity.
  - reflexivity.
  - simpl. lia.
Defined.

(** C10: [recoverDB] given the callback that only calls
    [chain.ProcessBlock] and the [recoverDB] that calls it in line return the
    same [blocksRead] and the same error, on every store and every chain;
    with too little fuel neither returns. *)
Theorem recoverDB_variants_agree E fuel d (ch : Chain E) :
  option_map (fun o => (blocksRead o, err o))
    (recoverDB E (processOnly E) fuel d ch)
  = option_map (fun o => (blocksRead o, err o)) (recoverDBInline E fuel d ch).
Proof.
  unfold recoverDB, recoverDBInline.
  split_advance E (initialScanner d) Hg.
  destruct oe as [e|]; [reflexivity|].
  now rewrite replayLoop_inline.
Qed.

(** ** The progress callback *)

Module ReporterFacts.
Import Reporter.

Lemma reportInterval_pos dbSize : 100 <= dbSize -> 0 < reportInterval dbSize.
Proof. intros H. unfold reportInterval. apply Z.div_str_pos. lia. Qed.

End ReporterFacts.

(** ** The file system *)

Module FsFacts.
Import Fs.

Lemma assoc_del_same c es : assoc c (del c es) = None.
Proof.
  induction es as [|[k n] es IH]; [reflexivity|]. cbn [del].
  destruct (String.eqb c k) eqn:Hck; [exact IH|].
  cbn [assoc]. now rewrite Hck.
Qed.

Lemma assoc_del_other c k es : c <> k -> assoc c (del k es) = assoc c es.
Proof.
  intros Hne. induction es as [|[k' n] es IH]; [reflexivity|]. cbn [del assoc].
  destruct (String.eqb k k') eqn:Hk.
  - apply String.eqb_eq in Hk. subst k'.
    apply String.eqb_neq in Hne. now rewrite Hne.
  - cbn [assoc]. now rewrite IH.
Qed.

Lemma assoc_set_same c n es : assoc c (set c n es) = Some n.
Proof. unfold set. cbn [assoc]. now rewrite String.eqb_refl. Qed.

Lemma assoc_set_other c k n es : c <> k -> assoc c (set k n es) = assoc c es.
Proof.
  intros Hne. unfold set. cbn [assoc].
  pose proof Hne as Hne'. apply String.eqb_neq in Hne'. rewrite Hne'.
  now apply assoc_del_other.
Qed.

Lemma stat_app p : forall q root,
  stat (p ++ q) root
  = match stat p root with Found n => stat q n | r => r end.
Proof.
  induction p as [|c p IH]; intros q root; [reflexivity|].
  cbn [app stat]. destruct root as [d|es]; [reflexivity|].
  destruct (assoc c es) as [n|]; [apply IH | reflexivity].
Qed.

Lemma stat_under p q root n :
  stat p root = Found n -> stat (p ++ q) root = stat q n.
Proof. intros H. now rewrite stat_app, H. Qed.

Lemma stat_cons_inv c p root n :
  stat (c :: p) root = Found n ->
  exists es m, root = Dir es /\ assoc c es = Some m /\ stat p m = Found n.
Proof.
  cbn [stat]. destruct root as [d|es]; [discriminate|].
  destruct (assoc c es) as [m|] eqn:Hm; [|discriminate].
  intros H. now exists es, m.
Qed.

Lemma mkdirAll_at p : forall q root n n',
  stat p root = Found n ->
  mkdirAll q n = Some n' ->
  exists root', mkdirAll (p ++ q) root = Some root' /\ stat p root' = Found n'.
Proof.
  induction p as [|c p IH]; intros q root n n' Hs Hm.
  - cbn in Hs. inversion Hs; subst. now exists n'.
  - destruct (stat_cons_inv _ _ _ _ Hs) as (es & m & -> & Ha & Hs').
    destruct (IH q m n n' Hs' Hm) as (m' & Hm' & Hst).
    cbn [app mkdirAll]. rewrite Ha, Hm'. eexists. split; [reflexivity|].
    cbn [stat]. now rewrite assoc_set_same.
Qed.

Lemma removeAt_at p : forall q root n,
  stat p root = Found n -> q <> [] ->
  stat p (removeAt (p ++ q) root) = Found (removeAt q n).
Proof.
  induction p as [|c p IH]; intros q root n Hs Hq.
  - cbn in Hs. inversion Hs; subst. reflexivity.
  - destruct (stat_cons_inv _ _ _ _ Hs) as (es & m & -> & Ha & Hs').
    cbn [app removeAt].
    destruct (p ++ q) as [|c' r] eqn:Hpq.
    { apply app_eq_nil in Hpq. tauto. }
    rewrite Ha, <- Hpq. cbn [stat]. rewrite assoc_set_same. now apply IH.
Qed.

Lemma insertAt_at p : forall q x root n n',
  stat p root = Found n -> q <> [] ->
  insertAt q x n = Some n' ->
  exists root', insertAt (p ++ q) x root = Some root'
                /\ stat p root' = Found n'.
Proof.
  induction p as [|c p IH]; intros q x root n n' Hs Hq Hi.
  - cbn in Hs. inversion Hs; subst. now exists n'.
  - destruct (stat_cons_inv _ _ _ _ Hs) as (es & m & -> & Ha & Hs').
    destruct (IH q x m n n' Hs' Hq Hi) as (m' & Hm' & Hst).
    cbn [app insertAt].
    destruct (p ++ q) as [|c' r] eqn:Hpq.
    { apply app_eq_nil in Hpq. tauto. }
    rewrite Ha, Hm'. eexists. split; [reflexivity|].
    cbn [stat]. now rewrite assoc_set_same.
Qed.

Lemma isPrefix_app p a b : isPrefix (p ++ a) (p ++ b) = isPrefix a b.
Proof.
  induction p as [|c p IH]; [reflexivity|].
  cbn [app isPrefix]. now rewrite String.eqb_refl, IH.
Qed.

Lemma last_app_under (p q : path) : q <> [] -> last (p ++ q) ""%string = last q ""%string.
Proof.
  intros Hq. induction p as [|c p IH]; [reflexivity|].
  cbn [app]. destruct (p ++ q) as [|c' r] eqn:Hpq.
  - apply app_eq_nil in Hpq. tauto.
  - cbn [last]. exact IH.
Qed.

Lemma mv_at p q1 q2 root n n' :
  stat p root = Found n -> q1 <> [] ->
  mv q1 q2 n = Some n' ->
  exists root', mv (p ++ q1) (p ++ q2) root = Some root'
                /\ stat p root' = Found n'.
Proof.
  intros Hs Hq Hm. unfold mv in *.
  rewrite !(stat_under p _ root n Hs).
  destruct (stat q1 n) as [x| |]; try discriminate.
  destruct (stat q2 n) as [[d|es]| |]; try discriminate.
  rewrite (last_app_under p q1 Hq), <- app_assoc, isPrefix_app.
  destruct (isPrefix q1 (q2 ++ [last q1 ""%string])); [discriminate|].
  rewrite (stat_under p _ root n Hs).
  destruct (stat (q2 ++ [last q1 ""%string]) n); try discriminate.
  apply insertAt_at with (n := removeAt q1 n); try assumption.
  - now apply removeAt_at.
  - intros Hnil. apply app_eq_nil in Hnil. destruct Hnil; discriminate.
Qed.

End FsFacts.

(** ** The staging steps of the [recover] command *)

Module RecoverFacts.
Import Fs Recover FsFacts.

Lemma join_name p name : name <> ""%string -> join p name = p ++ [name].
Proof.
  intros H. unfold join. apply String.eqb_neq in H. now rewrite H.
Qed.

Lemma subdirOf_known MainNet TestNet3 net :
  net = MainNet \/ net = TestNet3 ->
  subdirOf MainNet TestNet3 net = "mainnet"%string
  \/ subdirOf MainNet TestNet3 net = "testnet"%string.
Proof.
  unfold subdirOf. intros [->| ->].
  - rewrite Z.eqb_refl. now left.
  - destruct (TestNet3 =? MainNet); [now left|]. rewrite Z.eqb_refl. now right.
Qed.

(** The move, seen from the directory that holds the database. *)
Lemma mv_into_recovery sd es db :
  sd <> recoveryDir ->
  assoc sd es = Some db ->
  exists nB,
    mv [sd] [recoveryDir] (Dir (set recoveryDir (Dir []) es)) = Some nB
    /\ stat [recoveryDir] nB = Found (Dir [(sd, db)])
    /\ stat [recoveryDir; sd] nB = Found db
    /\ stat [sd] nB = NotExist.
Proof.
  intros Hne Hdb.
  assert (String.eqb sd recoveryDir = false) as Hsr by now apply String.eqb_neq.
  assert (String.eqb recoveryDir sd = false) as Hrs.
  { apply String.eqb_neq. congruence. }
  unfold mv. cbn [stat app last].
  rewrite (assoc_set_other _ _ _ _ Hne), Hdb, assoc_set_same.
  cbn [isPrefix]. rewrite Hsr. cbn [andb assoc].
  cbn [removeAt]. unfold set at 1. cbn [del]. rewrite Hsr.
  cbn [insertAt assoc]. rewrite String.eqb_refl.
  eexists. split; [reflexivity|].
  cbv beta iota. rewrite assoc_set_same.
  replace (set sd db []) with [(sd, db)] by reflexivity.
  cbn [assoc]. rewrite String.eqb_refl.
  repeat split.
  rewrite (assoc_set_other _ _ _ _ Hne). cbn [assoc]. rewrite Hsr.
  now rewrite assoc_del_same.
Qed.

(** Once the database is in the recovery directory and nothing is left at
    its old path, the staging steps change nothing. *)
Lemma stage_resume MainNet TestNet3 p net root ops db :
  net = MainNet \/ net = TestNet3 ->
  stat (join (join p recoveryDir) (subdirOf MainNet TestNet3 net)) root
    = Found db ->
  stat (join p (subdirOf MainNet TestNet3 net)) root = NotExist ->
  stage MainNet TestNet3 p net (root, ops) = ((root, ops), None).
Proof.
  intros Hnet Hrdb Hdb. unfold stage.
  set (sd := subdirOf MainNet TestNet3 net) in *.
  assert (sd <> ""%string) as Hsd.
  { destruct (subdirOf_known MainNet TestNet3 net Hnet) as [H|H];
      fold sd in H; rewrite H; discriminate. }
  assert (recoveryDir <> ""%string) as Hrd by discriminate.
  rewrite !(fun q => join_name q sd Hsd), !(fun q => join_name q _ Hrd) in *.
  rewrite stat_app in Hrdb.
  destruct (stat (p ++ [recoveryDir]) root) as [r| |] eqn:Hr; try discriminate.
  unfold createRecoveryDir, andThen. rewrite Hr.
  unfold moveDatabase. rewrite (stat_under _ [sd] _ _ Hr), Hrdb. cbn [isNotExist].
  unfold deleteOldDatabase. now rewrite Hdb.
Qed.

(** C7: when the database is at its path and there is no recovery
    directory yet, the staging steps create the directory and move the
    database into it; run again on the tree they leave, they make no call at
    all, so no second move, and leave the tree as it is: the database, flat
    files included, is in the recovery directory and nowhere else. *)
Theorem stage_twice MainNet TestNet3 p net root db :
  net = MainNet \/ net = TestNet3 ->
  stat (join p (subdirOf MainNet TestNet3 net)) root = Found db ->
  stat (join p recoveryDir) root = NotExist ->
  exists root1,
    stage MainNet TestNet3 p net (root, [])
    = ((root1, [OpMkdirAll (join p recoveryDir);
                OpMv (join p (subdirOf MainNet TestNet3 net))
                     (join p recoveryDir)]), None)
    /\ stat (join (join p recoveryDir) (subdirOf MainNet TestNet3 net)) root1
       = Found db
    /\ stat (join p (subdirOf MainNet TestNet3 net)) root1 = NotExist
    /\ stage MainNet TestNet3 p net (root1, []) = ((root1, []), None).
Proof.
  intros Hnet Hdb Hrec.
  assert (exists root1,
    stage MainNet TestNet3 p net (root, [])
    = ((root1, [OpMkdirAll (join p recoveryDir);
                OpMv (join p (subdirOf MainNet TestNet3 net))
                     (join p recoveryDir)]), None)
    /\ stat (join (join p recoveryDir) (subdirOf MainNet TestNet3 net)) root1
       = Found db
    /\ stat (join p (subdirOf MainNet TestNet3 net)) root1 = NotExist)
    as (root1 & Hrun & Hin & Hout).
  2:{ exists root1. repeat split; try assumption.
      now apply stage_resume with (db := db). }
  unfold stage.
  set (sd := subdirOf MainNet TestNet3 net) in *.
  assert (sd <> ""%string /\ sd <> recoveryDir) as [Hsd Hsr].
  { destruct (subdirOf_known MainNet TestNet3 net Hnet) as [H|H];
      fold sd in H; rewrite H; split; discriminate. }
  assert (recoveryDir <> ""%string) as Hrd by discriminate.
  rewrite !(fun q => join_name q sd Hsd), !(fun q => join_name q _ Hrd) in *.
  rewrite stat_app in Hdb.
  destruct (stat p root) as [[d|es]| |] eqn:Hp; try discriminate.
  cbn [stat] in Hdb.
  destruct (assoc sd es) as [x|] eqn:Ha; [|discriminate].
  inversion Hdb; subst x.
  pose proof Hrec as Hr. rewrite (stat_under _ _ _ _ Hp) in Hr. cbn [stat] in Hr.
  destruct (assoc recoveryDir es) as [x|] eqn:Hre; [discriminate|].
  assert (mkdirAll [recoveryDir] (Dir es)
          = Some (Dir (set recoveryDir (Dir []) es))) as Hmk.
  { cbn [mkdirAll]. now rewrite Hre. }
  destruct (mkdirAll_at p [recoveryDir] root _ _ Hp Hmk) as (rootA & HmkA & HpA).
  destruct (mv_into_recovery sd es db Hsr Ha) as (nB & Hmv & _ & Hin & Hout).
  destruct (mv_at p [sd] [recoveryDir] rootA _ nB HpA ltac:(discriminate) Hmv)
    as (rootB & HmvB & HpB).
  exists rootB.
  rewrite <- !app_assoc. cbn [app].
  rewrite !(stat_under _ _ _ _ HpB). repeat split; try assumption.
  unfold createRecoveryDir, andThen.
  rewrite Hrec, (stat_under _ _ _ _ Hp). cbn [stat]. rewrite Ha, HmkA.
  unfold moveDatabase.
  rewrite !(stat_under _ _ _ _ HpA). cbn [stat].
  rewrite assoc_set_same, (assoc_set_other _ _ _ _ Hsr), Ha. cbn [assoc isNotExist].
  rewrite HmvB.
  unfold deleteOldDatabase. rewrite (stat_under _ _ _ _ HpB), Hout.
  reflexivity.
Qed.

Lemma stage_twice_witness :
  exists root1,
    stage sampleMainNet sampleTestNet3 ["data"%string] sampleMainNet
      (sampleRoot, [])
    = ((root1, [OpMkdirAll ["data"%string; "recovery"%string];
                OpMv ["data"%string; "mainnet"%string]
                     ["data"%string; "recovery"%string]]), None)
    /\ stat ["data"%string; "recovery"%string; "mainnet"%string] root1
       = Found sampleDb
    /\ stat ["data"%string; "mainnet"%string] root1 = NotExist
    /\ stage sampleMainNet sampleTestNet3 ["data"%string] sampleMainNet
         (root1, []) = ((root1, []), None).
Proof.
  apply (stage_twice sampleMainNet sampleTestNet3 ["data"%string]
           sampleMainNet sampleRoot sampleDb).
  - left. reflexivity.
  - reflexivity.
  - reflexivity.
Defined.

End RecoverFacts.


(* ================================================================== *)
(** * Further facts about the scanner *)

Lemma getNextBlock_cases E sc :
  getNextBlock E sc = endOfData E
  \/ (exists e, getNextBlock E sc = (zeroScanner, None, zeroLocation, Some e))
  \/ (exists bs known raw,
        s sc = Some bs /\ knownFileLen E bs sc = Some known
        /\ readBlock E bs (zeroHash E) (getNextLocation sc) = inl raw).
Proof.
  unfold getNextBlock.
  destruct (s sc) as [bs|]; [|now left].
  destruct (knownFileLen E bs sc) as [known|] eqn:Hk; [|now left].
  destruct (readBlock E bs (zeroHash E) (getNextLocation sc)) as [raw|e] eqn:Hr.
  - right. right. now exists bs, known, raw.
  - right. left. now exists e.
Qed.

Lemma knownFileLen_in_range E bs sc known :
  inRange32 (fileLen sc) -> knownFileLen E bs sc = Some known ->
  inRange32 known.
Proof.
  unfold knownFileLen. intros Hl.
  destruct (fileLen sc =? 0).
  - destruct (osStat E _) as [size|]; [|discriminate].
    intros H; inversion H; subst. apply Z.mod_pos_bound. lia.
  - intros H; now inversion H.
Qed.

(** X1: [getNextBlock] never returns a block together with an error, and
    never returns a cursor that is still bound to the store without a block:
    its result is end-of-data, or an error with the zero scanner and the zero
    location, or a block with no error, located at the cursor's file and
    offset, with a next cursor on the same store. *)
Theorem getNextBlock_shape E sc :
  getNextBlock E sc = endOfData E
  \/ (exists e, getNextBlock E sc = (zeroScanner, None, zeroLocation, Some e))
  \/ (exists next b len,
        getNextBlock E sc
        = (next, Some b, mkLoc (fileNum sc) (fileOff sc) len, None)
        /\ s next = s sc /\ s sc <> None).
Proof.
  destruct (getNextBlock_cases E sc) as [H|[H|(bs & known & raw & Hs & Hk & Hr)]];
    [now left | now (right; left) |].
  right. right. rewrite (getNextBlock_read E sc _ _ _ Hs Hk Hr). cbv zeta.
  eexists _, _, _. split; [reflexivity|]. rewrite Hs.
  split; [|discriminate]. now destruct (_ =? _).
Qed.

Lemma getNextBlock_step_in_range E sc next ob l oe :
  scannerInRange sc ->
  getNextBlock E sc = (next, ob, l, oe) ->
  scannerInRange next /\ locationInRange l.
Proof.
  intros (Hn & Ho & Hl) Hg.
  assert (inRange32 0) as H0 by (unfold inRange32; lia).
  assert (scannerInRange zeroScanner /\ locationInRange zeroLocation) as Hz.
  { unfold scannerInRange, locationInRange; cbn. tauto. }
  destruct (getNextBlock_cases E sc) as [H|[(e & H)|(bs & known & raw & Hs & Hk & Hr)]].
  - rewrite H in Hg. unfold endOfData in Hg. inversion Hg; subst. exact Hz.
  - rewrite H in Hg. inversion Hg; subst. exact Hz.
  - rewrite (getNextBlock_read E sc _ _ _ Hs Hk Hr) in Hg. cbv zeta in Hg.
    pose proof (knownFileLen_in_range E bs sc known Hl Hk) as Hkr.
    inversion Hg; subst. unfold scannerInRange, locationInRange.
    assert (forall z, inRange32 (wrap32 z)) as Hw.
    { intros z. apply Z.mod_pos_bound. lia. }
    destruct (_ =? _); cbn; repeat split; try apply Hw;
      try apply Hn; try apply Ho; try apply Hkr; lia.
Qed.

(** X2: the fields of the cursor stay 32-bit values along every run: when
    [n] records are read from a cursor whose fields are in range, the cursor
    left behind and the location of every record read are in range. *)
Theorem readRecords_in_range E n : forall sc rs sc',
  scannerInRange sc ->
  readRecords E n sc = Some (rs, sc') ->
  scannerInRange sc' /\ Forall (fun r => locationInRange (loc r)) rs.
Proof.
  induction n as [|n IH]; intros sc rs sc' Hin Hr.
  - cbn in Hr. inversion Hr; subst. split; [assumption | constructor].
  - pose proof (readRecords_length _ _ _ _ _ Hr) as Hlen.
    destruct rs as [|r rs]; [discriminate|].
    destruct (readRecords_step _ _ _ _ _ _ Hr) as (sc1 & Hg & _ & Hr').
    destruct (getNextBlock_step_in_range E sc _ _ _ _ Hin Hg) as [Hin1 Hl].
    destruct (IH _ _ _ Hin1 Hr') as [Hin' Hall].
    split; [assumption | now constructor].
Qed.

Lemma readRecords_in_range_witness :
  exists sc' rs,
    readRecords (diskEnv threeRecords) 3 (initialScanner diskDb) = Some (rs, sc')
    /\ scannerInRange sc'
    /\ Forall (fun r => locationInRange (loc r)) rs.
Proof.
  eexists _, _. split; [reflexivity|].
  eapply (readRecords_in_range (diskEnv threeRecords) 3 (initialScanner diskDb)).
  - unfold scannerInRange, inRange32. cbn. lia.
  - reflexivity.
Defined.

(** X3: the end of the data is found right after the last record: when the
    record under the cursor ends exactly at the known length of its file and
    the file with the next number is absent, the call after this one answers
    end-of-data. *)
Theorem getNextBlock_last_record E sc bs known raw :
  s sc = Some bs ->
  knownFileLen E bs sc = Some known ->
  readBlock E bs (zeroHash E) (getNextLocation sc) = inl raw ->
  wrap32 (fileOff sc + wrap32 (Z.of_nat (List.length raw) + 12)) = known ->
  osStat E (blockFilePath E (basePath bs) (wrap32 (fileNum sc + 1))) = None ->
  exists b location,
    getNextBlock E sc
    = (mkScanner (Some bs) (wrap32 (fileNum sc + 1)) 0 0, Some b, location, None)
    /\ nthAdvance E 1 sc = endOfData E.
Proof.
  intros Hs Hk Hr Hend Hstat.
  pose proof (getNextBlock_read E sc _ _ _ Hs Hk Hr) as Hg. cbv zeta in Hg.
  rewrite Hend, Z.eqb_refl in Hg.
  eexists _, _. split; [exact Hg|].
  cbn [nthAdvance]. rewrite Hg.
  unfold getNextBlock, knownFileLen. cbn [s fileLen fileNum Z.eqb].
  now rewrite Hstat.
Qed.

Lemma getNextBlock_last_record_witness :
  exists b location,
    getNextBlock (diskEnv threeRecords) (mkScanner (Some (mkStore diskBase)) 1 0 0)
    = (mkScanner (Some (mkStore diskBase)) (wrap32 (1 + 1)) 0 0,
       Some b, location, None)
    /\ nthAdvance (diskEnv threeRecords) 1
         (mkScanner (Some (mkStore diskBase)) 1 0 0)
       = endOfData (diskEnv threeRecords).
Proof.
  apply (getNextBlock_last_record (diskEnv threeRecords)
           (mkScanner (Some (mkStore diskBase)) 1 0 0) (mkStore diskBase) 92
           (repeat Byte.x00 80)); reflexivity.
Defined.

(* ================================================================== *)
(** * Further facts about the replay loop *)

(** X4: an error of the first read, the one that skips the first record,
    is returned as it is with [blocksRead] = 0, also when it is a corruption
    error; the callback is not called and no further read is made. *)
Theorem recoverDB_first_read_error E {St}
    (f : St -> Block E -> blockLocation -> St * option error) fuel d st e :
  snd (getNextBlock E (initialScanner d)) = Some e ->
  recoverDB E f fuel d st
  = Some (mkOutcome st [EvAdvance (initialScanner d)] 0 (Some e)).
Proof.
  intros He. unfold recoverDB.
  split_advance E (initialScanner d) Hg. cbn in He. now subst oe.
Qed.

Lemma recoverDB_first_read_error_witness :
  recoverDB (diskEnv corruptFirst) countBlocks 0 diskDb 0%nat
  = Some (mkOutcome 0%nat [EvAdvance (initialScanner diskDb)] 0
            (Some (DatabaseError diskErrCorruption "checksum mismatch"))).
Proof.
  apply (recoverDB_first_read_error (diskEnv corruptFirst) countBlocks 0%nat
           diskDb 0%nat (DatabaseError diskErrCorruption "checksum mismatch")).
  reflexivity.
Defined.

(** X5: when the very first read already answers end-of-data (the store is
    nil, or its first file is absent), [recoverDB] returns no error and
    [blocksRead] = 1 although no record was read; the callback is not called,
    and the second read is made on the zero scanner. *)
Theorem recoverDB_no_data E {St}
    (f : St -> Block E -> blockLocation -> St * option error) fuel d st :
  getNextBlock E (initialScanner d) = endOfData E ->
  (1 <= fuel)%nat ->
  recoverDB E f fuel d st
  = Some (mkOutcome st [EvAdvance (initialScanner d); EvAdvance zeroScanner]
            1 None).
Proof.
  intros Hg Hfuel. unfold recoverDB. rewrite Hg. unfold endOfData.
  destruct fuel as [|fuel]; [lia|]. reflexivity.
Qed.

Lemma recoverDB_no_data_witness :
  recoverDB (diskEnv []) countBlocks 1 diskDb 0%nat
  = Some (mkOutcome 0%nat
            [EvAdvance (initialScanner diskDb); EvAdvance zeroScanner] 1 None).
Proof.
  apply (recoverDB_no_data (diskEnv []) countBlocks 1%nat diskDb 0%nat).
  - reflexivity.
  - lia.
Defined.

(** X6: an error of a later read that is not a corruption error is fatal:
    when the records at positions 1 to k-1 are read (k at least 2), the
    callback accepts those at positions 2 to k-1, and the read at position k
    fails with an error that [isDbErrCorruption] does not recognise,
    [recoverDB] returns that error with [blocksRead] = k-1. *)
Theorem recoverDB_read_error_fatal E {St}
    (f : St -> Block E -> blockLocation -> St * option error)
    d st (k : nat) g recs sck e st' fuel :
  readRecords E (k - 1) (initialScanner d) = Some (g :: recs, sck) ->
  snd (getNextBlock E sck) = Some e ->
  isDbErrCorruption E e = false ->
  feed f st recs = (st', None) ->
  (k - 1 <= fuel)%nat ->
  recoverDB E f fuel d st
  = Some (mkOutcome st'
            (EvAdvance (initialScanner d) :: eventsOf recs ++ [EvAdvance sck])
            (wrap32 (Z.of_nat k - 1)) (Some e)).
Proof.
  intros Hr He Hc Hf Hfuel.
  pose proof (readRecords_length _ _ _ _ _ Hr) as Hlen. cbn in Hlen.
  destruct k as [|[|j]]; try lia.
  replace (S (S j) - 1)%nat with (S j) in * by lia.
  destruct (readRecords_step _ _ _ _ _ _ Hr) as (sc1 & Hg & _ & Hr').
  rewrite (recoverDB_skip E St f fuel d st _ _ _ Hg).
  replace fuel with (j + S (fuel - S j))%nat by lia.
  rewrite (replayLoop_run E St f j _ _ _ Hr' _ _ _ _ _ Hf).
  cbn [replayLoop].
  split_advance E sck Hs. simpl in He. subst oe. rewrite Hc.
  rewrite bump_zero, wrap32_add_l. cbn [app].
  destruct ob; do 3 f_equal; lia.
Qed.

Lemma recoverDB_read_error_fatal_witness :
  exists trace,
    recoverDB (diskEnv unreadableSecond) countBlocks 5 diskDb 0%nat
    = Some (mkOutcome (E := diskEnv unreadableSecond) 0%nat trace
              (wrap32 (Z.of_nat 2 - 1))
              (Some (PlainError "input/output error"))).
Proof.
  eexists.
  eapply (recoverDB_read_error_fatal (diskEnv unreadableSecond) countBlocks
            diskDb 0%nat 2).
  - reflexivity.
  - reflexivity.
  - reflexivity.
  - reflexivity.
  - simpl. lia.
Defined.

Lemma advances_snoc {E} (tr : list (event E)) ev :
  advances (tr ++ [ev]) = advances tr + (if isAdvance ev then 1 else 0).
Proof.
  unfold advances. rewrite filter_app, length_app. cbn [filter].
  destruct (isAdvance ev); cbn [List.length]; lia.
Qed.

Lemma accepts_snoc {E} (tr : list (event E)) ev :
  accepts (tr ++ [ev]) = accepts tr + (if isAdvance ev then 0 else 1).
Proof.
  unfold accepts. rewrite filter_app, length_app. cbn [filter].
  destruct (isAdvance ev); cbn [List.length negb]; lia.
Qed.

Lemma replayLoop_counts E St
    (f : St -> Block E -> blockLocation -> St * option error) fuel :
  forall sc n st tr o,
    replayLoop E f fuel sc n st tr = Some o ->
    blocksRead o = wrap32 (n + (advances (trace o) - advances tr))
    /\ accepts (trace o) - accepts tr <= advances (trace o) - advances tr.
Proof.
  induction fuel as [|fuel IH]; intros sc n st tr o H; [discriminate|].
  cbn [replayLoop] in H.
  split_advance E sc Hg.
  assert (forall st0 e0,
            Some (mkOutcome st0 (tr ++ [EvAdvance sc]) (wrap32 (n + 1)) e0)
            = Some o ->
            blocksRead o = wrap32 (n + (advances (trace o) - advances tr))
            /\ accepts (trace o) - accepts tr
               <= advances (trace o) - advances tr) as Hstop.
  { intros st0 e0 Ho. inversion Ho; subst o. cbn [blocksRead trace].
    rewrite advances_snoc, accepts_snoc. cbn [isAdvance].
    split; [f_equal|]; lia. }
  cbv zeta in H. revert H.
  destruct oe as [e|].
  { destruct ob, (isDbErrCorruption E e); apply Hstop. }
  destruct ob as [b|]; [|apply Hstop].
  destruct (f st b l) as [st1 [e|]]; intros H.
  - inversion H; subst o. cbn [blocksRead trace].
    rewrite advances_snoc, accepts_snoc, advances_snoc, accepts_snoc.
    cbn [isAdvance]. split; [f_equal|]; lia.
  - apply IH in H. destruct H as [Hb Ha].
    rewrite advances_snoc, accepts_snoc, advances_snoc, accepts_snoc in *.
    cbn [isAdvance] in *. rewrite wrap32_add_l in Hb.
    split; [rewrite Hb; f_equal|]; lia.
Qed.

(** X7: whatever the store and the callback do, the [blocksRead] that
    [recoverDB] returns is the number of reads it made after the first one
    (as a [uint32]), and the callback was called at most that many times. *)
Theorem recoverDB_counts_reads E {St}
    (f : St -> Block E -> blockLocation -> St * option error) fuel d st o :
  recoverDB E f fuel d st = Some o ->
  blocksRead o = wrap32 (advances (trace o) - 1)
  /\ accepts (trace o) <= advances (trace o) - 1.
Proof.
  unfold recoverDB. split_advance E (initialScanner d) Hg.
  destruct oe as [e|].
  - intros H; inversion H; subst o. cbn. split; [reflexivity | lia].
  - intros H. apply replayLoop_counts in H. cbn in H.
    change (advances [EvAdvance (E := E) (initialScanner d)]) with 1 in H.
    change (accepts [EvAdvance (E := E) (initialScanner d)]) with 0 in H.
    destruct H as [Hb Ha]. split; [rewrite Hb; f_equal|]; lia.
Qed.

Lemma recoverDB_counts_reads_witness :
  exists o,
    recoverDB (diskEnv threeRecords) countBlocks 5 diskDb 0%nat = Some o
    /\ blocksRead o = wrap32 (advances (trace o) - 1)
    /\ accepts (trace o) <= advances (trace o) - 1.
Proof.
  eexists. split; [reflexivity|].
  apply (recoverDB_counts_reads (diskEnv threeRecords) countBlocks 5%nat
           diskDb 0%nat).
  reflexivity.
Defined.

(** X8: the two variants of [recoverDB] agree on everything, not only on
    the pair they return: with the callback that only calls
    [chain.ProcessBlock], the variant with the callback leaves the chain in
    the same state and makes the same reads and the same calls of
    [ProcessBlock] as the variant that calls it in line. *)
Theorem recoverDB_variants_same_run E fuel d (ch : Chain E) :
  recoverDB E (processOnly E) fuel d ch = recoverDBInline E fuel d ch.
Proof.
  unfold recoverDB, recoverDBInline.
  split_advance E (initialScanner d) Hg.
  destruct oe as [e|]; [reflexivity | apply replayLoop_inline].
Qed.


(* ================================================================== *)
(** * Stores whose files are made of records *)

Lemma bytesEqb_eq a : forall b, bytesEqb a b = true -> a = b.
Proof.
  induction a as [|x a IH]; intros [|y b] H; try discriminate; [reflexivity|].
  cbn [bytesEqb] in H. apply andb_true_iff in H as [Hx Hab].
  apply Byte.byte_dec_bl in Hx. subst y. f_equal. now apply IH.
Qed.

Lemma framedSize_pos raw : 12 <= framedSize raw.
Proof. unfold framedSize. lia. Qed.

Lemma framedFileSize_nonneg f : 0 <= framedFileSize f.
Proof.
  induction f as [|raw f IH]; cbn [framedFileSize fold_right]; [lia|].
  fold (framedFileSize f). pose proof (framedSize_pos raw). lia.
Qed.

Lemma readRecords_app E n1 : forall n2 sc rs1 sc1 rs2 sc2,
  readRecords E n1 sc = Some (rs1, sc1) ->
  readRecords E n2 sc1 = Some (rs2, sc2) ->
  readRecords E (n1 + n2) sc = Some (rs1 ++ rs2, sc2).
Proof.
  induction n1 as [|n1 IH]; intros n2 sc rs1 sc1 rs2 sc2 H1 H2.
  - cbn in H1. inversion H1; subst. exact H2.
  - pose proof (readRecords_length _ _ _ _ _ H1) as Hlen.
    destruct rs1 as [|r rs1]; [discriminate|].
    destruct (readRecords_step _ _ _ _ _ _ H1) as (sc' & Hg & Hc & H1').
    cbn [Nat.add readRecords]. rewrite Hg.
    rewrite (IH _ _ _ _ _ _ H1' H2). cbn [app]. do 3 f_equal.
    destruct r; cbn in *; now subst.
Qed.

Section Structured.

Variable E : Env.
Variable bs : blockStore.

Lemma scan_file i total : forall f off len,
  0 <= off ->
  f <> [] ->
  off + framedFileSize f = total ->
  total < 2 ^ 32 ->
  recordsLaidOut E bs i off f = true ->
  knownFileLen E bs (mkScanner (Some bs) i off len) = Some total ->
  exists rs,
    readRecords E (List.length f) (mkScanner (Some bs) i off len)
    = Some (rs, mkScanner (Some bs) (wrap32 (i + 1)) 0 0)
    /\ map blk rs = map (decoded E) f
    /\ map loc rs = fileLocations i off f.
Proof.
  induction f as [|raw f IH]; intros off len Hoff Hne Hsum Htot Hlay Hk;
    [congruence|].
  cbn [recordsLaidOut] in Hlay. apply andb_true_iff in Hlay as [Hread Hrest].
  destruct (readBlock E bs (zeroHash E) (mkLoc i off 0)) as [raw'|] eqn:Hrb;
    [|discriminate].
  apply bytesEqb_eq in Hread. subst raw'.
  cbn [framedFileSize fold_right] in Hsum. fold (framedFileSize f) in Hsum.
  pose proof (framedSize_pos raw) as Hpos.
  pose proof (framedFileSize_nonneg f) as Hnn.
  set (sc := mkScanner (Some bs) i off len) in *.
  pose proof (getNextBlock_read E sc bs total raw eq_refl Hk Hrb) as Hg.
  cbv zeta in Hg. fold (framedSize raw) in Hg. cbn [fileOff fileNum sc] in Hg.
  rewrite (wrap32_small (framedSize raw)) in Hg by lia.
  rewrite (wrap32_small (off + framedSize raw)) in Hg by lia.
  destruct f as [|raw2 f].
  - cbn [framedFileSize fold_right] in Hsum.
    replace (off + framedSize raw =? total) with true in Hg
      by (symmetry; apply Z.eqb_eq; lia).
    exists [mkRecord sc (decoded E raw) (mkLoc i off (framedSize raw))].
    cbn [List.length readRecords]. rewrite Hg. repeat split.
  - assert (raw2 :: f <> []) as Hne2 by discriminate.
    assert (12 <= framedFileSize (raw2 :: f)) as H12.
    { cbn [framedFileSize fold_right]. fold (framedFileSize f).
      pose proof (framedSize_pos raw2). pose proof (framedFileSize_nonneg f).
      lia. }
    replace (off + framedSize raw =? total) with false in Hg
      by (symmetry; apply Z.eqb_neq; lia).
    destruct (IH (off + framedSize raw) total) as (rs & Hrs & Hb & Hl);
      try assumption; try lia.
    { unfold knownFileLen. cbn [fileLen].
      replace (total =? 0) with false by (symmetry; apply Z.eqb_neq; lia).
      reflexivity. }
    exists (mkRecord sc (decoded E raw) (mkLoc i off (framedSize raw)) :: rs).
    change (List.length (raw :: raw2 :: f)) with (S (List.length (raw2 :: f))).
    cbn [readRecords]. rewrite Hg, Hrs.
    cbn [map blk loc fileLocations]. rewrite Hb, Hl. repeat split.
Qed.

Lemma scan_files : forall files i,
  0 <= i ->
  i + Z.of_nat (List.length files) < 2 ^ 32 ->
  filesLaidOut E bs i files = true ->
  exists rs,
    readRecords E (List.length (List.concat files)) (mkScanner (Some bs) i 0 0)
    = Some (rs, mkScanner (Some bs) (i + Z.of_nat (List.length files)) 0 0)
    /\ map blk rs = map (decoded E) (List.concat files)
    /\ map loc rs = storeLocations i files
    /\ getNextBlock E
         (mkScanner (Some bs) (i + Z.of_nat (List.length files)) 0 0)
       = endOfData E.
Proof.
  induction files as [|f fs IH]; intros i Hi Hn Hlay.
  - cbn [filesLaidOut] in Hlay. cbn [List.length Z.of_nat List.concat readRecords].
    rewrite Z.add_0_r. exists []. repeat split.
    unfold getNextBlock, knownFileLen. cbn [s fileLen fileNum Z.eqb].
    now destruct (osStat E (blockFilePath E (basePath bs) i)).
  - cbn [filesLaidOut] in Hlay.
    repeat (apply andb_true_iff in Hlay as [Hlay ?]).
    destruct f as [|raw f]; [discriminate|].
    destruct (osStat E (blockFilePath E (basePath bs) i)) as [size|] eqn:Hst;
      [|discriminate].
    match goal with H : (size =? _) = true |- _ => apply Z.eqb_eq in H; subst size end.
    match goal with H : (_ <? _) = true |- _ => apply Z.ltb_lt in H; rename H into Hlt end.
    pose proof (framedFileSize_nonneg (raw :: f)) as Hnn.
    destruct (scan_file i (framedFileSize (raw :: f)) (raw :: f) 0 0)
      as (rs1 & Hr1 & Hb1 & Hl1); try assumption; try lia; try discriminate.
    { unfold knownFileLen. cbn [fileLen fileNum Z.eqb]. rewrite Hst.
      now rewrite wrap32_small by lia. }
    cbn [List.length] in Hn.
    rewrite (wrap32_small (i + 1)) in Hr1 by lia.
    destruct (IH (i + 1)) as (rs2 & Hr2 & Hb2 & Hl2 & Hend);
      try assumption; try lia.
    replace (i + 1 + Z.of_nat (List.length fs))
      with (i + Z.of_nat (List.length (( raw :: f) :: fs))) in *
      by (cbn [List.length]; lia).
    exists (rs1 ++ rs2).
    cbn [List.concat storeLocations]. rewrite length_app, !map_app.
    rewrite (readRecords_app E _ _ _ _ _ _ _ Hr1 Hr2), Hb1, Hb2, Hl1, Hl2.
    repeat split. exact Hend.
Qed.

End Structured.


(** X9: on a store whose files are made of records, the scanner started at
    file 0, offset 0 reads every record of every file in order: the blocks
    are the raw blocks decoded, the locations are the file, the offset and
    the framed length of each record, and the call after the last record
    answers end-of-data. *)
Theorem scan_structured_store E bs files :
  filesLaidOut E bs 0 files = true ->
  Z.of_nat (List.length files) < 2 ^ 32 ->
  exists rs sc,
    readRecords E (List.length (List.concat files)) (mkScanner (Some bs) 0 0 0)
    = Some (rs, sc)
    /\ map blk rs = map (decoded E) (List.concat files)
    /\ map loc rs = storeLocations 0 files
    /\ getNextBlock E sc = endOfData E.
Proof.
  intros Hlay Hn.
  destruct (scan_files E bs files 0) as (rs & Hr & Hb & Hl & Hend);
    try assumption; try lia.
  exists rs. eexists. repeat split; eassumption.
Qed.

Lemma scan_structured_store_witness :
  exists rs sc,
    readRecords (diskEnv threeRecords) 3 (mkScanner (Some (mkStore diskBase)) 0 0 0)
    = Some (rs, sc)
    /\ map blk rs = map (decoded (diskEnv threeRecords)) (List.concat threeBlocks)
    /\ map loc rs = [mkLoc 0 0 92; mkLoc 0 92 93; mkLoc 1 0 92]
    /\ getNextBlock (diskEnv threeRecords) sc = endOfData (diskEnv threeRecords).
Proof.
  apply (scan_structured_store (diskEnv threeRecords) (mkStore diskBase)
           threeBlocks).
  - reflexivity.
  - cbn. lia.
Defined.

Lemma feed_accepting {E St}
    (f : St -> Block E -> blockLocation -> St * option error) :
  (forall st b l, snd (f st b l) = None) ->
  forall rs st, snd (feed f st rs) = None.
Proof.
  intros Hacc. induction rs as [|r rs IH]; intros st; [reflexivity|].
  cbn [feed]. specialize (Hacc st (blk r) (loc r)).
  destruct (f st (blk r) (loc r)) as [st' [e|]]; [discriminate | apply IH].
Qed.

Lemma accepted_eventsOf {E} (rs : list (record E)) tail :
  accepted (eventsOf rs ++ tail)
  = map (fun r => (blk r, loc r)) rs ++ accepted tail.
Proof.
  induction rs as [|r rs IH]; [reflexivity|].
  cbn [eventsOf flat_map app accepted map]. f_equal. exact IH.
Qed.

Lemma concat_nonempty (files : list (list (list Byte.byte))) E bs i :
  files <> [] -> filesLaidOut E bs i files = true ->
  List.concat files <> [].
Proof.
  destruct files as [|f fs]; [congruence|]. intros _ Hlay.
  cbn [filesLaidOut] in Hlay.
  repeat (apply andb_true_iff in Hlay as [Hlay ?]).
  destruct f; [discriminate|]. cbn. discriminate.
Qed.

(** The run of [recoverDB] on a store whose files are made of records. *)
Lemma recoverDB_structured_run E St
    (f : St -> Block E -> blockLocation -> St * option error)
    d bs files st fuel :
  store d = Some bs ->
  filesLaidOut E bs 0 files = true ->
  Z.of_nat (List.length files) < 2 ^ 32 ->
  files <> [] ->
  (forall st b l, snd (f st b l) = None) ->
  (List.length (List.concat files) <= fuel)%nat ->
  exists g recs scEnd st',
    map blk (g :: recs) = map (decoded E) (List.concat files)
    /\ map loc (g :: recs) = storeLocations 0 files
    /\ recoverDB E f fuel d st
       = Some (mkOutcome st'
                 (EvAdvance (initialScanner d)
                    :: eventsOf recs ++ [EvAdvance scEnd])
                 (wrap32 (Z.of_nat (List.length (List.concat files)))) None).
Proof.
  intros Hs Hlay Hn Hne Hacc Hfuel.
  destruct (scan_files E bs files 0) as (rs & Hr & Hb & Hl & Hend);
    try assumption; try lia.
  pose proof (concat_nonempty files E bs 0 Hne Hlay) as Hcne.
  pose proof (readRecords_length _ _ _ _ _ Hr) as Hlen.
  destruct rs as [|g recs].
  { destruct (List.concat files); [congruence | discriminate]. }
  assert (initialScanner d = mkScanner (Some bs) 0 0 0) as Hinit.
  { unfold initialScanner. now rewrite Hs. }
  rewrite <- Hinit in Hr.
  destruct (feed f st recs) as [st' oe] eqn:Hf.
  pose proof (feed_accepting f Hacc recs st) as Hnone.
  rewrite Hf in Hnone. cbn in Hnone. subst oe.
  exists g, recs. eexists. exists st'.
  split; [exact Hb|]. split; [exact Hl|].
  destruct (List.length (List.concat files)) as [|j] eqn:Hj; [discriminate|].
  destruct (readRecords_step _ _ _ _ _ _ Hr) as (sc1 & Hg & _ & Hr').
  rewrite (recoverDB_skip E St f fuel d st _ _ _ Hg).
  replace fuel with (j + S (fuel - S j))%nat by lia.
  rewrite (replayLoop_run E St f j _ _ _ Hr' _ _ _ _ _ Hf).
  cbn [replayLoop]. rewrite Hend. unfold endOfData.
  rewrite bump_zero, wrap32_add_l. cbn [app].
  do 3 f_equal. lia.
Qed.

(** X10: on a store whose files are made of records, with a callback that
    accepts every block, [recoverDB] returns (with fuel for one pass per
    record): it reports as [blocksRead] the number of records in the files,
    the first one included, and no error, and the callback has received
    every block but the first, in the order of the files, each with its
    location. *)
Theorem recoverDB_structured E {St}
    (f : St -> Block E -> blockLocation -> St * option error)
    d bs files st fuel :
  store d = Some bs ->
  filesLaidOut E bs 0 files = true ->
  Z.of_nat (List.length files) < 2 ^ 32 ->
  files <> [] ->
  (forall st b l, snd (f st b l) = None) ->
  (List.length (List.concat files) <= fuel)%nat ->
  exists o,
    recoverDB E f fuel d st = Some o
    /\ blocksRead o = wrap32 (Z.of_nat (List.length (List.concat files)))
    /\ err o = None
    /\ map fst (accepted (trace o)) = map (decoded E) (tl (List.concat files))
    /\ map snd (accepted (trace o)) = tl (storeLocations 0 files).
Proof.
  intros Hs Hlay Hn Hne Hacc Hfuel.
  destruct (recoverDB_structured_run E St f d bs files st fuel
              Hs Hlay Hn Hne Hacc Hfuel)
    as (g & recs & scEnd & st' & Hb & Hl & Hrun).
  eexists. split; [exact Hrun|]. cbn [blocksRead err trace accepted].
  rewrite accepted_eventsOf. cbn [accepted]. rewrite app_nil_r, !map_map.
  cbn [fst snd]. repeat split.
  - apply (f_equal (@tl _)) in Hb. cbn [map tl] in Hb.
    transitivity (map blk recs); [reflexivity|].
    rewrite Hb. now destruct (List.concat files).
  - apply (f_equal (@tl _)) in Hl. exact Hl.
Qed.

Lemma recoverDB_structured_witness :
  exists o,
    recoverDB (diskEnv threeRecords) countBlocks 3 diskDb 0%nat = Some o
    /\ blocksRead o = wrap32 (Z.of_nat 3)
    /\ err o = None
    /\ map fst (accepted (trace o))
       = map (decoded (diskEnv threeRecords)) (tl (List.concat threeBlocks))
    /\ map snd (accepted (trace o)) = [mkLoc 0 92 93; mkLoc 1 0 92].
Proof.
  apply (recoverDB_structured (diskEnv threeRecords) countBlocks diskDb
           (mkStore diskBase) threeBlocks 0%nat 3%nat).
  - reflexivity.
  - reflexivity.
  - cbn. lia.
  - discriminate.
  - intros st b l. reflexivity.
  - cbn. lia.
Defined.

(* ================================================================== *)
(** * The size of the database *)

Lemma storeSize_bound E bs : forall files i,
  filesLaidOut E bs i files = true ->
  0 <= storeSize files <= Z.of_nat (List.length files) * (2 ^ 32 - 1).
Proof.
  induction files as [|f fs IH]; intros i Hlay; [cbn; lia|].
  cbn [filesLaidOut] in Hlay.
  repeat (apply andb_true_iff in Hlay as [Hlay ?]).
  match goal with H : (_ <? _) = true |- _ => apply Z.ltb_lt in H end.
  pose proof (framedFileSize_nonneg f).
  specialize (IH (i + 1) ltac:(assumption)).
  cbn [storeSize fold_right List.length]. fold (storeSize fs). lia.
Qed.

Lemma databaseSizeLoop_files E bs : forall files i acc fuel,
  0 <= i ->
  i + Z.of_nat (List.length files) < 2 ^ 32 ->
  filesLaidOut E bs i files = true ->
  0 <= acc ->
  acc + Z.of_nat (List.length files) * (2 ^ 32 - 1) < 2 ^ 64 ->
  (List.length files < fuel)%nat ->
  databaseSizeLoop E bs fuel i acc = Some (acc + storeSize files).
Proof.
  induction files as [|f fs IH]; intros i acc fuel Hi Hn Hlay Hacc Hb Hfuel.
  - destruct fuel as [|fuel]; [cbn in Hfuel; lia|].
    cbn [filesLaidOut] in Hlay. cbn [databaseSizeLoop storeSize fold_right].
    destruct (osStat E (blockFilePath E (basePath bs) i)); [discriminate|].
    f_equal. lia.
  - destruct fuel as [|fuel]; [cbn in Hfuel; lia|].
    pose proof (storeSize_bound E bs (f :: fs) i Hlay) as Hsz.
    cbn [filesLaidOut] in Hlay.
    repeat (apply andb_true_iff in Hlay as [Hlay ?]).
    destruct (osStat E (blockFilePath E (basePath bs) i)) as [size|] eqn:Hst;
      [|discriminate].
    match goal with H : (size =? _) = true |- _ => apply Z.eqb_eq in H; subst size end.
    match goal with H : (_ <? _) = true |- _ => apply Z.ltb_lt in H end.
    pose proof (framedFileSize_nonneg f).
    cbn [List.length] in *. cbn [storeSize fold_right] in *.
    fold (storeSize fs) in *.
    pose proof (storeSize_bound E bs fs (i + 1) ltac:(assumption)) as Hsz'.
    cbn [databaseSizeLoop]. rewrite Hst.
    rewrite (wrap32_small (i + 1)) by lia.
    unfold wrap64. rewrite (Z.mod_small (framedFileSize f)) by lia.
    rewrite (Z.mod_small (acc + framedFileSize f)) by lia.
    rewrite IH; try assumption; try lia.
    f_equal. lia.
Qed.

(** X11: on a store whose files are made of records, the size that
    [RecoverDB] computes before the replay is the sum of the framed sizes of
    all the records of all the files; the loop stops at the first absent
    file. *)
Theorem databaseSize_structured E bs files fuel :
  filesLaidOut E bs 0 files = true ->
  Z.of_nat (List.length files) < 2 ^ 32 ->
  (List.length files < fuel)%nat ->
  databaseSize E bs fuel = Some (storeSize files).
Proof.
  intros Hlay Hn Hfuel. unfold databaseSize.
  rewrite (databaseSizeLoop_files E bs files 0 0 fuel); try assumption; try lia.
  reflexivity.
Qed.

Lemma databaseSize_structured_witness :
  databaseSize (diskEnv threeRecords) (mkStore diskBase) 3 = Some 277.
Proof.
  apply (databaseSize_structured (diskEnv threeRecords) (mkStore diskBase)
           threeBlocks 3%nat).
  - reflexivity.
  - cbn. lia.
  - cbn. lia.
Defined.

Lemma totalBytes_app a b :
  Reporter.totalBytes (a ++ b) = Reporter.totalBytes a + Reporter.totalBytes b.
Proof.
  unfold Reporter.totalBytes.
  induction a as [|l a IH]; cbn [app fold_right]; [reflexivity | lia].
Qed.

Lemma totalBytes_fileLocations f : forall i off,
  Reporter.totalBytes (fileLocations i off f) = framedFileSize f.
Proof.
  induction f as [|raw f IH]; intros i off; [reflexivity|].
  cbn [fileLocations framedFileSize fold_right]. unfold Reporter.totalBytes.
  cbn [fold_right blockLen]. fold (Reporter.totalBytes
    (fileLocations i (off + framedSize raw) f)).
  rewrite IH. reflexivity.
Qed.

Lemma totalBytes_storeLocations files : forall i,
  Reporter.totalBytes (storeLocations i files) = storeSize files.
Proof.
  induction files as [|f fs IH]; intros i; [reflexivity|].
  cbn [storeLocations storeSize fold_right].
  now rewrite totalBytes_app, totalBytes_fileLocations, IH.
Qed.

(** X12: over a complete replay of a store whose files are made of records
    the locations handed to the callback add up to the size of the database
    less the first record, which is skipped; so the byte count of the
    progress callback ends below the size it is compared with. *)
Theorem recoverDB_structured_bytes E {St}
    (f : St -> Block E -> blockLocation -> St * option error)
    d bs files st fuel :
  store d = Some bs ->
  filesLaidOut E bs 0 files = true ->
  Z.of_nat (List.length files) < 2 ^ 32 ->
  files <> [] ->
  (forall st b l, snd (f st b l) = None) ->
  (List.length (List.concat files) <= fuel)%nat ->
  exists o first,
    recoverDB E f fuel d st = Some o
    /\ hd_error (List.concat files) = Some first
    /\ databaseSize E bs (S (List.length files)) = Some (storeSize files)
    /\ Reporter.totalBytes (map snd (accepted (trace o)))
       = storeSize files - framedSize first
    /\ Reporter.totalBytes (map snd (accepted (trace o))) < storeSize files.
Proof.
  intros Hs Hlay Hn Hne Hacc Hfuel.
  destruct (recoverDB_structured_run E St f d bs files st fuel
              Hs Hlay Hn Hne Hacc Hfuel)
    as (g & recs & scEnd & st' & Hb & Hl & Hrun).
  pose proof (concat_nonempty files E bs 0 Hne Hlay) as Hcne.
  destruct (List.concat files) as [|first rest] eqn:Hc; [congruence|].
  exists (mkOutcome st'
            (EvAdvance (initialScanner d) :: eventsOf recs ++ [EvAdvance scEnd])
            (wrap32 (Z.of_nat (List.length (first :: rest)))) None), first.
  split; [exact Hrun|]. split; [reflexivity|].
  split.
  { unfold databaseSize.
    rewrite (databaseSizeLoop_files E bs files 0 0); try assumption; try lia.
    reflexivity. }
  cbn [trace accepted]. rewrite accepted_eventsOf. cbn [accepted].
  rewrite app_nil_r, map_map. cbn [snd].
  assert (Reporter.totalBytes (map (fun r => loc r) recs)
          = storeSize files - framedSize first) as Htot.
  { pose proof (totalBytes_storeLocations files 0) as Hall.
    rewrite <- Hl in Hall. cbn [map] in Hall.
    unfold Reporter.totalBytes in Hall. cbn [fold_right] in Hall.
    fold (Reporter.totalBytes (map loc recs)) in Hall.
    assert (blockLen (loc g) = framedSize first) as Hg.
    { destruct files as [|f0 fs]; [congruence|].
      cbn [filesLaidOut] in Hlay.
      repeat (apply andb_true_iff in Hlay as [Hlay ?]).
      destruct f0 as [|raw0 f0]; [discriminate|].
      cbn [List.concat app] in Hc. inversion Hc; subst raw0.
      cbn [storeLocations fileLocations app map] in Hl.
      injection Hl as Hg _. now rewrite Hg. }
    change (map (fun r => loc r) recs) with (map loc recs). lia. }
  split; [exact Htot|].
  rewrite Htot. pose proof (framedSize_pos first). lia.
Qed.

Lemma recoverDB_structured_bytes_witness :
  exists o first,
    recoverDB (diskEnv threeRecords) countBlocks 3 diskDb 0%nat = Some o
    /\ hd_error (List.concat threeBlocks) = Some first
    /\ databaseSize (diskEnv threeRecords) (mkStore diskBase) 3 = Some 277
    /\ Reporter.totalBytes (map snd (accepted (trace o)))
       = 277 - framedSize first
    /\ Reporter.totalBytes (map snd (accepted (trace o))) < 277.
Proof.
  apply (recoverDB_structured_bytes (diskEnv threeRecords) countBlocks diskDb
           (mkStore diskBase) threeBlocks 0%nat 3%nat).
  - reflexivity.
  - reflexivity.
  - cbn. lia.
  - discriminate.
  - intros st b l. reflexivity.
  - cbn. lia.
Defined.


(* ================================================================== *)
(** * Further facts about the progress callback *)

Module ReporterCounters.
Import Reporter.

Lemma length_print dbSize clock st :
  List.length (printed (print dbSize clock st)) = S (List.length (printed st)).
Proof. unfold print. cbn [printed]. rewrite length_app. cbn. lia. Qed.

Lemma report_consistent dbSize clock st l :
  100 <= dbSize ->
  consistent dbSize st ->
  0 <= blockLen l ->
  bytesRead st + blockLen l < 2 ^ 64 ->
  blocksRead st + 1 < 2 ^ 32 ->
  exists st', report dbSize clock st l = Some st'
              /\ bytesRead st' = bytesRead st + blockLen l
              /\ blocksRead st' = blocksRead st + 1
              /\ consistent dbSize st'.
Proof.
  intros Hdb (Hb & Hn & Hr & Hbr & Hlen) Hl Hb64 Hn32.
  pose proof (ReporterFacts.reportInterval_pos dbSize Hdb) as Hri.
  assert (bytesRead st / reportInterval dbSize
          <= (bytesRead st + blockLen l) / reportInterval dbSize) as Hmono.
  { apply Z.div_le_mono; lia. }
  assert (blocksRead st / blocksReportInterval
          <= (blocksRead st + 1) / blocksReportInterval) as Hmono'.
  { apply Z.div_le_mono; unfold blocksReportInterval; lia. }
  unfold report, byteCadence, count.
  cbn [bytesRead reports blocksReports blocksRead printed].
  destruct (reportInterval dbSize =? 0) eqn:Hz; [apply Z.eqb_eq in Hz; lia|].
  unfold wrap64, wrap32.
  rewrite (Z.mod_small (bytesRead st + blockLen l)) by lia.
  rewrite (Z.mod_small (blocksRead st + 1)) by lia.
  destruct (Z.gtb_spec ((bytesRead st + blockLen l) / reportInterval dbSize)
              (reports st)) as [Hgt|Hle];
    unfold blockCadence;
    cbn [bytesRead reports blocksReports blocksRead printed print];
    match goal with
    | |- context [?a / blocksReportInterval >? ?b] =>
      destruct (Z.gtb_spec (a / blocksReportInterval) b) as [Hgt'|Hle']
    end;
    eexists; (split; [reflexivity|]);
    unfold consistent, print;
    cbn [bytesRead reports blocksReports blocksRead printed];
    rewrite ?length_app; cbn [List.length];
    repeat split; try lia.
Qed.

Lemma reportAll_consistent dbSize clock locations : forall st,
  100 <= dbSize ->
  consistent dbSize st ->
  forallb (fun l => 0 <=? blockLen l) locations = true ->
  bytesRead st + totalBytes locations < 2 ^ 64 ->
  blocksRead st + Z.of_nat (List.length locations) < 2 ^ 32 ->
  exists st', reportAll dbSize clock st locations = Some st'
              /\ bytesRead st' = bytesRead st + totalBytes locations
              /\ blocksRead st' = blocksRead st + Z.of_nat (List.length locations)
              /\ consistent dbSize st'.
Proof.
  induction locations as [|l ls IH]; intros st Hdb Hc Hpos Hb Hn.
  - exists st. cbn [reportAll totalBytes fold_right List.length Z.of_nat].
    split; [reflexivity|]. split; [lia|]. split; [lia | exact Hc].
  - cbn [forallb] in Hpos. apply andb_true_iff in Hpos as [Hl Hls].
    apply Z.leb_le in Hl.
    cbn [totalBytes fold_right] in *. fold (totalBytes ls) in *.
    assert (0 <= totalBytes ls) as Hnn.
    { clear - Hls. induction ls as [|x xs IHx]; [cbn; lia|].
      cbn [forallb] in Hls. apply andb_true_iff in Hls as [Hx Hxs].
      apply Z.leb_le in Hx. cbn [totalBytes fold_right].
      fold (totalBytes xs). specialize (IHx Hxs). lia. }
    cbn [List.length] in Hn.
    destruct (report_consistent dbSize clock st l Hdb Hc Hl) as
      (st1 & Hr & Hb1 & Hn1 & Hc1); try lia.
    destruct (IH st1 Hdb Hc1 Hls) as (st' & Hall & Hb' & Hn' & Hc'); try lia.
    exists st'. cbn [reportAll]. rewrite Hr.
    split; [exact Hall|]. cbn [List.length].
    split; [lia|]. split; [lia | exact Hc'].
Qed.

End ReporterCounters.

(** X13: for a database of at least 100 bytes and a sequence of calls
    whose lengths add up to less than 2^64 and whose number is less than
    2^32, the callback ends with [bytesRead] the sum of the lengths,
    [blocksRead] the number of calls, [reports] the number of whole report
    intervals in [bytesRead] and [blocksReports] the number of whole ten
    thousands in [blocksRead]; and it has printed at most one status line
    per report interval of bytes plus one per ten thousand blocks. *)
Theorem reportAll_counters dbSize clock locations :
  100 <= dbSize ->
  forallb (fun l => 0 <=? blockLen l) locations = true ->
  Reporter.totalBytes locations < 2 ^ 64 ->
  Z.of_nat (List.length locations) < 2 ^ 32 ->
  exists st,
    Reporter.reportAll dbSize clock Reporter.initial locations = Some st
    /\ Reporter.bytesRead st = Reporter.totalBytes locations
    /\ Reporter.blocksRead st = Z.of_nat (List.length locations)
    /\ Reporter.reports st
       = Reporter.totalBytes locations / Reporter.reportInterval dbSize
    /\ Reporter.blocksReports st
       = Z.of_nat (List.length locations) / Reporter.blocksReportInterval
    /\ Z.of_nat (List.length (Reporter.printed st))
       <= Reporter.totalBytes locations / Reporter.reportInterval dbSize
          + Z.of_nat (List.length locations) / Reporter.blocksReportInterval.
Proof.
  intros Hdb Hpos Hb Hn.
  destruct (ReporterCounters.reportAll_consistent dbSize clock locations
              Reporter.initial Hdb) as (st & Hall & Hb' & Hn' & Hc);
    try assumption; try (cbn; lia).
  { unfold Reporter.consistent. cbn. repeat split; try lia;
      rewrite Z.div_0_l; try reflexivity;
      pose proof (ReporterFacts.reportInterval_pos dbSize Hdb); lia. }
  cbn in Hb', Hn'. destruct Hc as (_ & _ & Hr & Hbr & Hlen).
  exists st. rewrite Hb' in Hr. rewrite Hn' in Hbr.
  repeat split; try assumption. rewrite <- Hr, <- Hbr. exact Hlen.
Qed.

Lemma reportAll_counters_witness :
  exists st,
    Reporter.reportAll 1000 (fun _ => 1.5%float) Reporter.initial
      [mkLoc 0 0 200; mkLoc 0 200 300] = Some st
    /\ Reporter.bytesRead st = 500
    /\ Reporter.blocksRead st = 2
    /\ Reporter.reports st = 500 / Reporter.reportInterval 1000
    /\ Reporter.blocksReports st = 2 / Reporter.blocksReportInterval
    /\ Z.of_nat (List.length (Reporter.printed st))
       <= 500 / Reporter.reportInterval 1000
          + 2 / Reporter.blocksReportInterval.
Proof.
  apply (reportAll_counters 1000 (fun _ => 1.5%float)
           [mkLoc 0 0 200; mkLoc 0 200 300]).
  - lia.
  - reflexivity.
  - cbn. lia.
  - cbn. lia.
Defined.

(** X14: the callback stops the program with an integer division by zero
    exactly when the flat files hold less than 100 bytes: then
    [reportInterval] is 0 and every call, whatever its block and location,
    divides by it; from 100 bytes on no call does. *)
Theorem callback_divides_by_zero E dbSize clock st b l :
  0 <= dbSize ->
  (Reporter.callback E dbSize clock st b l = None <-> dbSize < 100).
Proof.
  intros Hdb. unfold Reporter.callback, Reporter.report, Reporter.byteCadence.
  unfold Reporter.reportInterval.
  destruct (dbSize / 100 =? 0) eqn:Hz.
  - apply Z.eqb_eq in Hz. split; [intros _|reflexivity].
    destruct (Z.lt_ge_cases dbSize 100) as [|Hge]; [assumption|].
    assert (0 < dbSize / 100) by (apply Z.div_str_pos; lia). lia.
  - apply Z.eqb_neq in Hz. split.
    + destruct (_ >? _); destruct (ProcessBlock E _ _ _); discriminate.
    + intros Hlt. rewrite Z.div_small in Hz by lia. congruence.
Qed.

Lemma callback_divides_by_zero_witness :
  Reporter.callback (diskEnv threeRecords) 99 (fun _ => 0%float)
    (Reporter.initial, 0%nat) (NewBlock []) (mkLoc 0 92 93) = None
  <-> 99 < 100.
Proof.
  apply (callback_divides_by_zero (diskEnv threeRecords) 99 (fun _ => 0%float)
           (Reporter.initial, 0%nat) (NewBlock []) (mkLoc 0 92 93)).
  lia.
Defined.

(* ================================================================== *)
(** * Further facts about the [recover] command *)

Module RecoverMore.
Import Fs Recover FsFacts RecoverFacts.

Lemma known_subdir MainNet TestNet3 net :
  net = MainNet \/ net = TestNet3 ->
  subdirOf MainNet TestNet3 net <> ""%string
  /\ subdirOf MainNet TestNet3 net <> recoveryDir.
Proof.
  intros Hnet.
  destruct (subdirOf_known MainNet TestNet3 net Hnet) as [H|H];
    rewrite H; split; discriminate.
Qed.

Lemma stat_dir_entry p name root n :
  stat (p ++ [name]) root = Found n ->
  exists es, stat p root = Found (Dir es) /\ assoc name es = Some n.
Proof.
  rewrite stat_app.
  destruct (stat p root) as [[d|es]| |]; try discriminate.
  cbn [stat]. destruct (assoc name es) as [m|] eqn:Ha; [|discriminate].
  intros H; inversion H; subst. now exists es.
Qed.

Lemma removeAll_child p name root es :
  stat p root = Found (Dir es) ->
  exists root', removeAll (p ++ [name]) root = Some root'
                /\ stat p root' = Found (Dir (del name es)).
Proof.
  intros Hp. unfold removeAll.
  destruct (p ++ [name]) as [|c r] eqn:Hpn.
  { apply app_eq_nil in Hpn. destruct Hpn; discriminate. }
  rewrite <- Hpn. eexists. split; [reflexivity|].
  rewrite (removeAt_at p [name] root _ Hp) by discriminate. reflexivity.
Qed.

(** X15: when the recovery directory already holds the database, the
    staging steps never move anything: they at most remove what is at the
    old path of the database (a new database left half built by an earlier
    run), and afterwards the staged database is still in the recovery
    directory and nothing is at the old path. *)
Theorem stage_reentry MainNet TestNet3 p net root db :
  net = MainNet \/ net = TestNet3 ->
  stat (join (join p recoveryDir) (subdirOf MainNet TestNet3 net)) root
    = Found db ->
  exists root' ops,
    stage MainNet TestNet3 p net (root, []) = ((root', ops), None)
    /\ (ops = []
        \/ ops = [OpRemoveAll (join p (subdirOf MainNet TestNet3 net))])
    /\ stat (join (join p recoveryDir) (subdirOf MainNet TestNet3 net)) root'
       = Found db
    /\ stat (join p (subdirOf MainNet TestNet3 net)) root' = NotExist.
Proof.
  intros Hnet Hrdb. unfold stage.
  destruct (known_subdir MainNet TestNet3 net Hnet) as [Hsd Hsr].
  set (sd := subdirOf MainNet TestNet3 net) in *.
  assert (recoveryDir <> ""%string) as Hrd by discriminate.
  rewrite !(fun q => join_name q sd Hsd), !(fun q => join_name q _ Hrd) in *.
  destruct (stat_dir_entry _ _ _ _ Hrdb) as (es2 & Hrec & Hdb2).
  destruct (stat_dir_entry _ _ _ _ Hrec) as (es & Hp & Hre).
  unfold createRecoveryDir, andThen. rewrite Hrec.
  unfold moveDatabase. rewrite Hrdb. cbn [isNotExist].
  unfold deleteOldDatabase.
  rewrite (stat_under p [sd] root _ Hp). cbn [stat].
  assert (forall es', assoc recoveryDir es' = Some (Dir es2) ->
            stat [recoveryDir; sd] (Dir es') = Found db) as Hkeep.
  { intros es' H. cbn [stat]. now rewrite H, Hdb2. }
  destruct (assoc sd es) as [x|] eqn:Hx; cbn [isFound].
  - destruct (removeAll_child p sd root es Hp) as (root' & Hrm & Hp').
    rewrite Hrm. exists root'. eexists. split; [reflexivity|].
    split; [now right|].
    rewrite <- app_assoc. cbn [app].
    rewrite !(stat_under p _ root' _ Hp'). split.
    + apply Hkeep. rewrite assoc_del_other by congruence. exact Hre.
    + cbn [stat]. now rewrite assoc_del_same.
  - exists root. eexists. split; [reflexivity|]. split; [now left|].
    split; [exact Hrdb|].
    rewrite (stat_under p [sd] root _ Hp). cbn [stat]. now rewrite Hx.
Qed.

Lemma stage_reentry_witness :
  exists root' ops,
    stage sampleMainNet sampleTestNet3 ["data"%string] sampleMainNet
      (RecoverSamples.interruptedRoot, []) = ((root', ops), None)
    /\ (ops = [] \/ ops = [OpRemoveAll ["data"%string; "mainnet"%string]])
    /\ stat ["data"%string; "recovery"%string; "mainnet"%string] root'
       = Found sampleDb
    /\ stat ["data"%string; "mainnet"%string] root' = NotExist.
Proof.
  apply (stage_reentry sampleMainNet sampleTestNet3 ["data"%string]
           sampleMainNet RecoverSamples.interruptedRoot sampleDb).
  - left. reflexivity.
  - reflexivity.
Defined.

(** X16: when a regular file stands where the recovery directory should
    be, the staging steps report no error, skip the move, because the stat of
    the staged path fails with an error other than "does not exist", and
    then remove the database at its path: after them the database is neither
    at its path nor staged. *)
Theorem stage_recovery_is_file MainNet TestNet3 p net root db data :
  net = MainNet \/ net = TestNet3 ->
  stat (join p (subdirOf MainNet TestNet3 net)) root = Found db ->
  stat (join p recoveryDir) root = Found (File data) ->
  exists root',
    stage MainNet TestNet3 p net (root, [])
    = ((root', [OpRemoveAll (join p (subdirOf MainNet TestNet3 net))]), None)
    /\ stat (join p (subdirOf MainNet TestNet3 net)) root' = NotExist
    /\ stat (join (join p recoveryDir) (subdirOf MainNet TestNet3 net)) root'
       = NotDir.
Proof.
  intros Hnet Hdb Hrec. unfold stage.
  destruct (known_subdir MainNet TestNet3 net Hnet) as [Hsd Hsr].
  set (sd := subdirOf MainNet TestNet3 net) in *.
  assert (recoveryDir <> ""%string) as Hrd by discriminate.
  rewrite !(fun q => join_name q sd Hsd), !(fun q => join_name q _ Hrd) in *.
  destruct (stat_dir_entry _ _ _ _ Hdb) as (es & Hp & Hsde).
  destruct (stat_dir_entry _ _ _ _ Hrec) as (es' & Hp' & Hre).
  rewrite Hp in Hp'. inversion Hp'; subst es'.
  unfold createRecoveryDir, andThen. rewrite Hrec.
  unfold moveDatabase. rewrite (stat_under _ [sd] root _ Hrec).
  cbn [stat isNotExist].
  unfold deleteOldDatabase. rewrite Hdb. cbn [isFound].
  destruct (removeAll_child p sd root es Hp) as (root' & Hrm & Hpr).
  rewrite Hrm. exists root'. split; [reflexivity|].
  rewrite <- app_assoc. cbn [app].
  rewrite !(stat_under p _ root' _ Hpr). cbn [stat].
  rewrite assoc_del_same.
  rewrite assoc_del_other by congruence. rewrite Hre. split; reflexivity.
Qed.

Lemma stage_recovery_is_file_witness :
  exists root',
    stage sampleMainNet sampleTestNet3 ["data"%string] sampleMainNet
      (RecoverSamples.blockedRoot, [])
    = ((root', [OpRemoveAll ["data"%string; "mainnet"%string]]), None)
    /\ stat ["data"%string; "mainnet"%string] root' = NotExist
    /\ stat ["data"%string; "recovery"%string; "mainnet"%string] root' = NotDir.
Proof.
  apply (stage_recovery_is_file sampleMainNet sampleTestNet3 ["data"%string]
           sampleMainNet RecoverSamples.blockedRoot sampleDb [Byte.x00]).
  - left. reflexivity.
  - reflexivity.
  - reflexivity.
Defined.

(** X17: with no database at its path and none staged, the staging steps
    fail and change nothing: no directory is created and no call that
    changes the tree is made. *)
Theorem stage_nothing_to_recover MainNet TestNet3 p net root ops :
  net = MainNet \/ net = TestNet3 ->
  stat (join p (subdirOf MainNet TestNet3 net)) root = NotExist ->
  stat (join (join p recoveryDir) (subdirOf MainNet TestNet3 net)) root
    = NotExist ->
  exists e, stage MainNet TestNet3 p net (root, ops) = ((root, ops), Some e).
Proof.
  intros Hnet Hdb Hrdb. unfold stage.
  destruct (known_subdir MainNet TestNet3 net Hnet) as [Hsd Hsr].
  set (sd := subdirOf MainNet TestNet3 net) in *.
  assert (recoveryDir <> ""%string) as Hrd by discriminate.
  rewrite !(fun q => join_name q sd Hsd), !(fun q => join_name q _ Hrd) in *.
  unfold createRecoveryDir, andThen.
  rewrite stat_app in Hrdb.
  destruct (stat (p ++ [recoveryDir]) root) as [r| |] eqn:Hrec;
    try discriminate.
  - unfold moveDatabase. rewrite stat_app, Hrec, Hrdb. cbn [isNotExist].
    rewrite Hdb. eexists. reflexivity.
  - rewrite Hdb. eexists. reflexivity.
Qed.

Lemma stage_nothing_to_recover_witness :
  exists e,
    stage sampleMainNet sampleTestNet3 ["data"%string] sampleMainNet
      (RecoverSamples.emptyRoot, [])
    = ((RecoverSamples.emptyRoot, []), Some e).
Proof.
  apply (stage_nothing_to_recover sampleMainNet sampleTestNet3 ["data"%string]
           sampleMainNet RecoverSamples.emptyRoot []).
  - left. reflexivity.
  - reflexivity.
  - reflexivity.
Defined.

Lemma remove_keeps_staged p sd root db :
  sd <> recoveryDir ->
  stat (p ++ [recoveryDir; sd]) root = Found db ->
  stat (p ++ [recoveryDir; sd]) (remove (p ++ [sd]) root) = Found db
  /\ remove (p ++ [recoveryDir]) root = root.
Proof.
  intros Hsr Hrdb.
  change [recoveryDir; sd] with ([recoveryDir] ++ [sd]) in Hrdb.
  rewrite app_assoc in Hrdb.
  destruct (stat_dir_entry _ _ _ _ Hrdb) as (es2 & Hrec & Hdb2).
  destruct (stat_dir_entry _ _ _ _ Hrec) as (es & Hp & Hre).
  rewrite <- app_assoc in Hrdb. cbn [app] in Hrdb.
  split.
  - unfold remove.
    assert (stat (p ++ [recoveryDir; sd]) (removeAt (p ++ [sd]) root)
            = Found db) as Hrm.
    { rewrite (stat_under p _ _ _ (removeAt_at p [sd] root _ Hp
                                     ltac:(discriminate))).
      cbn [removeAt stat]. rewrite assoc_del_other by congruence.
      now rewrite Hre, Hdb2. }
    destruct (stat (p ++ [sd]) root) as [[d|[|x xs]]| |]; assumption.
  - unfold remove. rewrite Hrec.
    destruct es2 as [|x xs]; [discriminate | reflexivity].
Qed.

(** X18: [recoverDatabase] itself never removes the staged database: if
    the staging steps succeed with the database in the recovery directory and
    [RecoverDB] leaves it there, it is still there when [recoverDatabase]
    returns, whether [RecoverDB] failed or not; in particular the final
    [os.Remove] of the recovery directory removes nothing, because the
    directory is not empty. *)
Theorem recoverDatabase_keeps_staged MainNet TestNet3 RecoverDB
    p net root root1 ops1 db :
  net = MainNet \/ net = TestNet3 ->
  isFound (stat p root) = true ->
  stage MainNet TestNet3 p net (root, []) = ((root1, ops1), None) ->
  stat (join (join p recoveryDir) (subdirOf MainNet TestNet3 net))
    (fst (RecoverDB
            (join (join p (subdirOf MainNet TestNet3 net)) blocksDir)
            (join (join (join p recoveryDir)
                     (subdirOf MainNet TestNet3 net)) blocksDir)
            net root1))
    = Found db ->
  exists rootF opsF result,
    recoverDatabase MainNet TestNet3 RecoverDB p net (root, [])
    = ((rootF, opsF), result)
    /\ stat (join (join p recoveryDir) (subdirOf MainNet TestNet3 net)) rootF
       = Found db
    /\ (snd result = None ->
        rootF
        = fst (RecoverDB
                 (join (join p (subdirOf MainNet TestNet3 net)) blocksDir)
                 (join (join (join p recoveryDir)
                          (subdirOf MainNet TestNet3 net)) blocksDir)
                 net root1)).
Proof.
  intros Hnet Hfound Hstage Hkeep.
  unfold recoverDatabase. cbn [fst]. rewrite Hfound, Hstage.
  destruct (RecoverDB _ _ net root1) as [root2 [blks|e]]; cbn [fst] in Hkeep.
  - eexists _, _, _. split; [reflexivity|].
    destruct (known_subdir MainNet TestNet3 net Hnet) as [Hsd Hsr].
    assert (recoveryDir <> ""%string) as Hrd by discriminate.
    rewrite !(fun q => join_name q _ Hsd), !(fun q => join_name q _ Hrd) in *.
    rewrite <- app_assoc in *. cbn [app] in *.
    destruct (remove_keeps_staged p _ root2 db Hsr Hkeep) as [_ Hsame].
    rewrite Hsame. split; [exact Hkeep | reflexivity].
  - eexists _, _, _. split; [reflexivity|].
    destruct (known_subdir MainNet TestNet3 net Hnet) as [Hsd Hsr].
    assert (recoveryDir <> ""%string) as Hrd by discriminate.
    rewrite !(fun q => join_name q _ Hsd), !(fun q => join_name q _ Hrd) in *.
    rewrite <- app_assoc in *. cbn [app] in *.
    destruct (remove_keeps_staged p _ root2 db Hsr Hkeep) as [Hrm _].
    split; [exact Hrm | discriminate].
Qed.

Lemma recoverDatabase_keeps_staged_witness :
  exists rootF opsF result,
    recoverDatabase sampleMainNet sampleTestNet3 RecoverSamples.failingRecoverDB
      ["data"%string] sampleMainNet (sampleRoot, [])
    = ((rootF, opsF), result)
    /\ stat ["data"%string; "recovery"%string; "mainnet"%string] rootF
       = Found sampleDb
    /\ (snd result = None ->
        rootF
        = fst (RecoverSamples.failingRecoverDB
                 ["data"%string; "mainnet"%string; "blocks_ffldb"%string]
                 ["data"%string; "recovery"%string; "mainnet"%string;
                  "blocks_ffldb"%string]
                 sampleMainNet
                 (fst (fst (stage sampleMainNet sampleTestNet3
                              ["data"%string] sampleMainNet
                              (sampleRoot, [])))))).
Proof.
  eapply (recoverDatabase_keeps_staged sampleMainNet sampleTestNet3
            RecoverSamples.failingRecoverDB ["data"%string] sampleMainNet
            sampleRoot).
  - left. reflexivity.
  - reflexivity.
  - reflexivity.
  - reflexivity.
Defined.

(** X19: for a net that is neither [MainNet] nor [TestNet3], a value that
    [recoverDatabaseFromArgs] never passes, the subdirectory name is empty
    and the database path is the data path itself: with no recovery directory
    yet, the staging steps create it inside the data path, move nothing, and
    then remove the whole data path. *)
Theorem stage_unknown_net MainNet TestNet3 p net root es :
  net <> MainNet -> net <> TestNet3 ->
  p <> [] ->
  stat p root = Found (Dir es) ->
  stat (join p recoveryDir) root = NotExist ->
  exists root',
    stage MainNet TestNet3 p net (root, [])
    = ((root', [OpMkdirAll (join p recoveryDir); OpRemoveAll p]), None)
    /\ stat p root' = NotExist.
Proof.
  intros Hm Ht Hpne Hp Hrec. unfold stage.
  assert (subdirOf MainNet TestNet3 net = ""%string) as Hsub.
  { unfold subdirOf. apply Z.eqb_neq in Hm, Ht. now rewrite Hm, Ht. }
  rewrite Hsub.
  assert (recoveryDir <> ""%string) as Hrd by discriminate.
  rewrite !(fun q => join_name q _ Hrd) in *.
  assert (forall q, join q "" = q) as Hj by reflexivity.
  rewrite !Hj.
  pose proof Hrec as Hre. rewrite (stat_under p _ root _ Hp) in Hre.
  cbn [stat] in Hre.
  destruct (assoc recoveryDir es) as [x|] eqn:Hx; [discriminate|].
  assert (mkdirAll [recoveryDir] (Dir es)
          = Some (Dir (set recoveryDir (Dir []) es))) as Hmk.
  { cbn [mkdirAll]. now rewrite Hx. }
  destruct (mkdirAll_at p [recoveryDir] root _ _ Hp Hmk) as (rootA & HmkA & HpA).
  unfold createRecoveryDir, andThen. rewrite Hrec, Hp, HmkA.
  unfold moveDatabase. rewrite (stat_under p _ rootA _ HpA). cbn [stat].
  rewrite assoc_set_same. cbn [isNotExist].
  unfold deleteOldDatabase. rewrite HpA. cbn [isFound].
  destruct (exists_last Hpne) as (q & c & Hq). subst p.
  destruct (stat_dir_entry _ _ _ _ HpA) as (esq & Hqs & Hc).
  destruct (removeAll_child q c rootA esq Hqs) as (root' & Hrm & Hq').
  rewrite Hrm. exists root'. split; [reflexivity|].
  rewrite (stat_under q _ root' _ Hq'). cbn [stat].
  now rewrite assoc_del_same.
Qed.

Lemma stage_unknown_net_witness :
  exists root',
    stage sampleMainNet sampleTestNet3 ["data"%string] 5 (sampleRoot, [])
    = ((root', [OpMkdirAll ["data"%string; "recovery"%string];
                OpRemoveAll ["data"%string]]), None)
    /\ stat ["data"%string] root' = NotExist.
Proof.
  eapply (stage_unknown_net sampleMainNet sampleTestNet3 ["data"%string] 5
            sampleRoot).
  - discriminate.
  - discriminate.
  - discriminate.
  - reflexivity.
  - reflexivity.
Defined.

End RecoverMore.


(* ================================================================== *)
(** * The progress callback on a small database *)

Lemma readRecords_prefix E m : forall n sc rs sc',
  readRecords E n sc = Some (rs, sc') ->
  (m <= n)%nat ->
  exists sc'', readRecords E m sc = Some (firstn m rs, sc'').
Proof.
  induction m as [|m IH]; intros n sc rs sc' Hr Hle.
  - exists sc. reflexivity.
  - destruct n as [|n]; [lia|].
    pose proof (readRecords_length _ _ _ _ _ Hr) as Hlen.
    destruct rs as [|r rs]; [discriminate|].
    destruct (readRecords_step _ _ _ _ _ _ Hr) as (sc1 & Hg & Hc & Hr').
    destruct (IH n sc1 rs sc' Hr' ltac:(lia)) as (sc'' & Hm).
    exists sc''. cbn [readRecords firstn]. rewrite Hg, Hm.
    do 3 f_equal. destruct r; cbn in *; now subst.
Qed.

(** C8: the code does not keep what the claim says.  On a store whose flat
    files hold at least two records and less than 100 bytes, [RecoverDB]
    computes that size, its [reportInterval] is 0, the replay reads the
    second record and hands it to the progress callback, and that call, like
    any call of the callback, divides [bytesRead] by [reportInterval]: an
    integer division by zero, which stops the program before any percentage
    is reported. *)
Theorem callback_fails_on_small_database E bs files fuel clock :
  filesLaidOut E bs 0 files = true ->
  Z.of_nat (List.length files) < 2 ^ 32 ->
  (List.length files < fuel)%nat ->
  (2 <= List.length (List.concat files))%nat ->
  storeSize files < 100 ->
  databaseSize E bs fuel = Some (storeSize files)
  /\ Reporter.reportInterval (storeSize files) = 0
  /\ (exists g r sc,
        readRecords E 2 (mkScanner (Some bs) 0 0 0) = Some ([g; r], sc)
        /\ map loc [g; r] = firstn 2 (storeLocations 0 files))
  /\ forall st b l,
       Reporter.callback E (storeSize files) clock st b l = None.
Proof.
  intros Hlay Hn Hfuel Htwo Hsmall.
  pose proof (storeSize_bound E bs files 0 Hlay) as [Hnn _].
  assert (Reporter.reportInterval (storeSize files) = 0) as Hri.
  { unfold Reporter.reportInterval. apply Z.div_small. lia. }
  split.
  { unfold databaseSize.
    rewrite (databaseSizeLoop_files E bs files 0 0); try assumption; try lia.
    reflexivity. }
  split; [exact Hri|]. split.
  - destruct (scan_files E bs files 0) as (rs & Hr & _ & Hl & _);
      try assumption; try lia.
    pose proof (readRecords_length _ _ _ _ _ Hr) as Hlen.
    destruct (readRecords_prefix E 2 _ _ _ _ Hr Htwo) as (sc & Hpre).
    destruct rs as [|g [|r rs]]; try (cbn in Hlen; lia).
    exists g, r, sc. split; [exact Hpre|].
    rewrite <- Hl. reflexivity.
  - intros st b l.
    unfold Reporter.callback, Reporter.report, Reporter.byteCadence.
    now rewrite Hri.
Qed.

Lemma callback_fails_on_small_database_witness :
  databaseSize (diskEnv tinyStore) (mkStore diskBase) 2 = Some 44
  /\ Reporter.reportInterval 44 = 0
  /\ (exists g r sc,
        readRecords (diskEnv tinyStore) 2 (mkScanner (Some (mkStore diskBase)) 0 0 0)
        = Some ([g; r], sc)
        /\ map loc [g; r] = [mkLoc 0 0 22; mkLoc 0 22 22])
  /\ forall st b l,
       Reporter.callback (diskEnv tinyStore) 44 (fun _ => 1%float) st b l
       = None.
Proof.
  apply (callback_fails_on_small_database (diskEnv tinyStore)
           (mkStore diskBase) tinyBlocks 2%nat (fun _ => 1%float)).
  - reflexivity.
  - cbn. lia.
  - cbn. lia.
  - cbn. lia.
  - cbn. lia.
Defined.
